(** * Rekognition Custom Labels notebook: detection normalisation and pipeline

    A shallow embedding of the code cells of
    [gt_object_det/2a. Rekognition Custom Labels.ipynb].

    Python [float] is IEEE-754 binary64, which is exactly Rocq's primitive
    [float]; [+] on it is [PrimFloat.add], [>=] and [<] are [PrimFloat.leb]
    and [PrimFloat.ltb].  Python exceptions are values of [exn]; a
    computation that may raise returns [res]. *)

From Stdlib Require Import Floats String List Bool Arith Lia ZArith.
Import ListNotations.

Set Warnings "-inexact-float".
Local Open Scope string_scope.

(** ** Exceptions *)

(** The exceptions the cells can raise.  [LookupError] is the built-in base
    class of [KeyError] and [IndexError] only; [ValueError], raised by
    [list.index], derives from [Exception] directly. *)
Inductive exn : Type :=
| AssertionError (msg : string)
| NameError (name : string)
| ValueError (missing : string)   (* "'x' is not in list" *)
| KeyError (key : string)
| IndexError
| OSError (path : string)
| ClientError (operation : string)
| NoRegionError.                   (* botocore: "You must specify a region." *)

(** [isinstance(e, LookupError)]. *)
Definition is_LookupError (e : exn) : bool :=
  match e with
  | KeyError _ | IndexError => true
  | _ => false
  end.

Inductive res (A : Type) : Type :=
| OK (a : A)
| Err (e : exn).
Arguments OK {A} a.
Arguments Err {A} e.

Definition bind {A B : Type} (c : res A) (k : A -> res B) : res B :=
  match c with
  | OK a => k a
  | Err e => Err e
  end.

Notation "x <- c ;; k" := (bind c (fun x => k))
  (at level 61, c at next level, right associativity).

(** [list(map(f, xs))] for an [f] that may raise: elements are visited left
    to right and the first exception aborts the whole map. *)
Fixpoint list_map {A B : Type} (f : A -> res B) (xs : list A) : res (list B) :=
  match xs with
  | [] => OK []
  | x :: xs' =>
      y <- f x ;;
      ys <- list_map f xs' ;;
      OK (y :: ys)
  end.

(** ** Data model *)

(** One element of [response["CustomLabels"]]. *)
Record BoundingBox : Type := mkBoundingBox {
  Left : float;
  Top : float;
  Width : float;
  Height : float
}.

Record Geometry : Type := mkGeometry {
  BoundingBox_ : BoundingBox
}.

Record CustomLabel : Type := mkCustomLabel {
  Name : string;
  Confidence : float;
  Geometry_ : Geometry
}.

(** One row [[class_ix, confidence, x1, y1, x2, y2]] of [result]. *)
Record NormalizedDetection : Type := mkRow {
  class_ix : nat;
  confidence : float;
  x1 : float;
  y1 : float;
  x2 : float;
  y2 : float
}.

(** ** Result normaliser *)

(** [CLASS_NAMES.index(x)]: position of the first element equal to [x];
    raises [ValueError] when there is none. *)
Fixpoint index (l : list string) (x : string) : res nat :=
  match l with
  | [] => Err (ValueError x)
  | y :: l' =>
      if String.eqb y x then OK 0
      else i <- index l' x ;; OK (S i)
  end.

(** The lambda mapped over the labels. *)
Definition normalize_label (CLASS_NAMES : list string) (l : CustomLabel)
  : res NormalizedDetection :=
  k <- index CLASS_NAMES (Name l) ;;
  OK {| class_ix := k;
        confidence := Confidence l;
        x1 := Left (BoundingBox_ (Geometry_ l));
        y1 := Top (BoundingBox_ (Geometry_ l));
        x2 := (Left (BoundingBox_ (Geometry_ l))
               + Width (BoundingBox_ (Geometry_ l)))%float;
        y2 := (Top (BoundingBox_ (Geometry_ l))
               + Height (BoundingBox_ (Geometry_ l)))%float |}.

(** [result = list(map(lambda l: [...], response["CustomLabels"]))]. *)
Definition result (CLASS_NAMES : list string) (labels : list CustomLabel)
  : res (list NormalizedDetection) :=
  list_map (normalize_label CLASS_NAMES) labels.

(** A label as the service reports it, from its six attributes. *)
Definition detection (name : string) (conf left top width height : float)
  : CustomLabel :=
  {| Name := name;
     Confidence := conf;
     Geometry_ := {| BoundingBox_ :=
       {| Left := left; Top := top; Width := width; Height := height |} |} |}.

(** ** Renderer *)

(** Modelled from the spec: [util.visualize_detection], whose module [util]
    is not among the sources.  The spec's contract is "produce a visual
    overlay showing only detections with confidence >= threshold"; the model
    returns the detections that are drawn, in the order given. *)
Definition visualize_detection (img_file : string)
  (dets : list NormalizedDetection) (classes : list string) (thresh : float)
  : list NormalizedDetection :=
  filter (fun det => (thresh <=? confidence det)%float) dets.

(** ** Notebook cells *)

(** What a run of the notebook does to the outside world, in order. *)
Inductive event : Type :=
| PipUpgrade                       (* !pip install --upgrade awscli boto3 *)
| GetExecutionRole                 (* sagemaker.get_execution_role() *)
| HeadBucket (Bucket : string)     (* session.client("s3").head_bucket *)
| PrintLine (text : string)
| StartProjectVersion (ProjectVersionArn : string) (MinInferenceUnits : Z)
| ListDir (path : string)          (* os.listdir *)
| ReadFile (path : string)         (* open(path, "rb").read() *)
| DetectCustomLabels (ProjectVersionArn : string) (Bytes : list Byte.byte)
    (MinConfidence : option float)
| DisplayHTML (html : string)
| VisualizeDetection (img_file : string) (dets : list NormalizedDetection)
    (classes : list string) (thresh : float)
| StopProjectVersion (ProjectVersionArn : string).

(** Requests to an AWS service made through the SDK. *)
Definition is_remote_call (e : event) : bool :=
  match e with
  | GetExecutionRole | HeadBucket _ | StartProjectVersion _ _
  | DetectCustomLabels _ _ _ | StopProjectVersion _ => true
  | _ => false
  end.

(** Model deployment and inference requests. *)
Definition is_model_call (e : event) : bool :=
  match e with
  | StartProjectVersion _ _ | DetectCustomLabels _ _ _
  | StopProjectVersion _ => true
  | _ => false
  end.

Record Response : Type := mkResponse {
  CustomLabels : list CustomLabel
}.

(** Everything the notebook reads from outside: the IPython store, the SDK
    session, the file system and the answers of the services. *)
Record World : Type := mkWorld {
  stored_BUCKET_NAME : option string;
  stored_CLASS_NAMES : option (list string);
  stored_test_image_folder : option string;
  region_name : option string;
  get_execution_role : res string;
  head_bucket : string -> res string;   (* the x-amz-bucket-region header *)
  start_project_version : string -> Z -> res unit;
  listdir : string -> res (list string);
  read : string -> res (list Byte.byte);
  detect_custom_labels :
    string -> list Byte.byte -> option float -> res Response;
  stop_project_version : string -> res unit
}.

(** A cell: it extends the trace of events and returns or raises; the trace
    survives an exception. *)
Definition cell (A : Type) : Type := list event -> list event * res A.

Definition ret {A : Type} (a : A) : cell A := fun t => (t, OK a).

Definition raise {A : Type} (e : exn) : cell A := fun t => (t, Err e).

Definition and_then {A B : Type} (c : cell A) (k : A -> cell B) : cell B :=
  fun t =>
    match c t with
    | (t', OK a) => k a t'
    | (t', Err e) => (t', Err e)
    end.

Notation "x <~ c ;; k" := (and_then c (fun x => k))
  (at level 61, c at next level, right associativity).

Definition emit (e : event) : cell unit := fun t => ((t ++ [e])%list, OK tt).

(** A request [e] whose outcome is [r]. *)
Definition call {A : Type} (e : event) (r : res A) : cell A :=
  fun t => ((t ++ [e])%list, r).

Definition lift {A : Type} (r : res A) : cell A := fun t => (t, r).

Definition assert (b : bool) (msg : string) : cell unit :=
  if b then ret tt else raise (AssertionError msg).

Fixpoint for_each {A : Type} (xs : list A) (body : A -> cell unit)
  : cell unit :=
  match xs with
  | [] => ret tt
  | x :: xs' => _ <~ body x ;; for_each xs' body
  end.

(** [%store -r name] then [assert name, msg]: when nothing is stored the
    magic only prints a notice and the name stays unbound, so the assert
    raises [NameError]; a stored falsy value fails the assertion. *)
Definition restore {A : Type} (name : string) (stored : option A)
  (truthy : A -> bool) (msg : string) : cell A :=
  match stored with
  | None => raise (NameError name)
  | Some v => _ <~ assert (truthy v) msg ;; ret v
  end.

Definition str_truthy (s : string) : bool := negb (String.eqb s "").

Definition list_truthy {A : Type} (l : list A) : bool :=
  match l with [] => false | _ :: _ => true end.

Record Config : Type := mkConfig {
  BUCKET_NAME : string;
  CLASS_NAMES : list string;
  test_image_folder : string
}.

(** Step 6a, configuration. *)
Definition cell_configuration (w : World) : cell Config :=
  b <~ restore "BUCKET_NAME" (stored_BUCKET_NAME w) str_truthy
         "BUCKET_NAME missing from IPython store" ;;
  c <~ restore "CLASS_NAMES" (stored_CLASS_NAMES w) list_truthy
         "CLASS_NAMES missing from IPython store" ;;
  f <~ restore "test_image_folder" (stored_test_image_folder w) str_truthy
         "test_image_folder missing from IPython store" ;;
  ret {| BUCKET_NAME := b; CLASS_NAMES := c; test_image_folder := f |}.

(** [bucket_region == region]; [region] is [None] when the session has no
    region configured. *)
Definition region_eqb (bucket_region : string) (region : option string)
  : bool :=
  match region with
  | Some r => String.eqb bucket_region r
  | None => false
  end.

Definition region_mismatch_msg (bucket : string) : string :=
  "Your S3 bucket " ++ bucket
    ++ " and this notebook need to be in the same region.".

(** [session.client("rekognition")]: creating the client makes no request,
    but it raises [NoRegionError] when the session has no region. *)
Definition client (service : string) (region : option string) : cell unit :=
  match region with
  | Some _ => ret tt
  | None => raise NoRegionError
  end.

(** Step 6a, SDK session and bucket validation. *)
Definition cell_session (w : World) (cfg : Config) : cell (option string) :=
  role <~ call GetExecutionRole (get_execution_role w) ;;
  let region := region_name w in
  _ <~ client "rekognition" region ;;
  bucket_region <~
    call (HeadBucket (BUCKET_NAME cfg)) (head_bucket w (BUCKET_NAME cfg)) ;;
  _ <~ assert (region_eqb bucket_region region)
         (region_mismatch_msg (BUCKET_NAME cfg)) ;;
  _ <~ (if negb (region_eqb "us-east-1" region)
        then emit (PrintLine
          "WARNING: Rekognition Custom Labels functionality is only available in us-east-1 at launch")
        else ret tt) ;;
  ret region.

(** Step 6b. *)
Definition cell_deploy (w : World) (model_arn : string) : cell unit :=
  call (StartProjectVersion model_arn 1) (start_project_version w model_arn 1).

(** The body of the loop of step 7, for one directory entry. *)
Definition process_image (w : World) (cfg : Config) (model_arn : string)
  (override_confidence : option float) (test_image : string) : cell unit :=
  let test_image_path := test_image_folder cfg ++ "/" ++ test_image in
  payload <~ call (ReadFile test_image_path) (read w test_image_path) ;;
  response <~
    call (DetectCustomLabels model_arn payload override_confidence)
         (detect_custom_labels w model_arn payload override_confidence) ;;
  rows <~ lift (result (CLASS_NAMES cfg) (CustomLabels response)) ;;
  _ <~ emit (DisplayHTML ("<h4>" ++ test_image ++ "</h4>")) ;;
  emit (VisualizeDetection test_image_path rows (CLASS_NAMES cfg) 0%float).

(** Step 7. *)
Definition cell_inference (w : World) (cfg : Config) (model_arn : string)
  (override_confidence : option float) : cell unit :=
  names <~ call (ListDir (test_image_folder cfg))
                (listdir w (test_image_folder cfg)) ;;
  for_each names (process_image w cfg model_arn override_confidence).

(** Clean up. *)
Definition cell_cleanup (w : World) (model_arn : string) : cell unit :=
  call (StopProjectVersion model_arn) (stop_project_version w model_arn).

(** The code cells top to bottom; an exception stops the run.  [model_arn]
    is the value the user pastes in, [override_confidence] the floor chosen
    in step 7 ([None] or a number). *)
Definition notebook (w : World) (model_arn : string)
  (override_confidence : option float) : cell unit :=
  _ <~ emit PipUpgrade ;;
  cfg <~ cell_configuration w ;;
  region <~ cell_session w cfg ;;
  _ <~ cell_deploy w model_arn ;;
  _ <~ cell_inference w cfg model_arn override_confidence ;;
  cell_cleanup w model_arn.

Definition run (w : World) (model_arn : string)
  (override_confidence : option float) : list event * res unit :=
  notebook w model_arn override_confidence [].

(** A required value is missing when nothing is stored or what is stored is
    falsy. *)
Definition missing {A : Type} (stored : option A) (truthy : A -> bool)
  : Prop :=
  match stored with
  | None => True
  | Some v => truthy v = false
  end.

(** The errors step 6a raises for a missing value. *)
Definition is_setup_error (e : exn) : bool :=
  match e with
  | AssertionError _ | NameError _ => true
  | _ => false
  end.

(** The service reports confidences on the 0-100 scale. *)
Definition confidence_in_range (l : CustomLabel) : Prop :=
  (0 <=? Confidence l)%float = true /\ (Confidence l <=? 100)%float = true.

Definition service_contract (w : World) : Prop :=
  forall arn payload floor response,
    detect_custom_labels w arn payload floor = OK response ->
    Forall confidence_in_range (CustomLabels response).

(** What holds of every render request of a run: the threshold is 0 and the
    rows are the normalisation of one response of the service to this run's
    model and floor. *)
Definition render_of_response (w : World) (model_arn : string)
  (override_confidence : option float) (e : event) : Prop :=
  match e with
  | VisualizeDetection img_file dets classes thresh =>
      thresh = 0%float /\
      exists payload response,
        detect_custom_labels w model_arn payload override_confidence
          = OK response
        /\ result classes (CustomLabels response) = OK dets
  | _ => True
  end.

(** What holds of every inference request of a run: it names this run's
    model and carries [override_confidence] as it is, [None] included. *)
Definition forwards_floor (model_arn : string)
  (override_confidence : option float) (e : event) : Prop :=
  match e with
  | DetectCustomLabels arn _ floor =>
      arn = model_arn /\ floor = override_confidence
  | _ => True
  end.

(** Every event a cell adds to the trace satisfies [P]. *)
Definition trace_inv {A : Type} (P : event -> Prop) (c : cell A) : Prop :=
  forall t, Forall P t -> Forall P (fst (c t)).

(** ** Sample worlds *)

(** One test image, on which the service reports one cat. *)
Definition sample_world : World :=
  {| stored_BUCKET_NAME := Some "bootsncats-data";
     stored_CLASS_NAMES := Some ["boots"; "cats"];
     stored_test_image_folder := Some "data/test";
     region_name := Some "us-east-1";
     get_execution_role := OK "arn:aws:iam::123456789012:role/notebook";
     head_bucket := fun _ => OK "us-east-1";
     start_project_version := fun _ _ => OK tt;
     listdir := fun _ => OK ["cat.jpg"];
     read := fun _ => OK [];
     detect_custom_labels := fun _ _ _ =>
       OK {| CustomLabels := [detection "cats" 92.5 0.1 0.2 0.3 0.4] |};
     stop_project_version := fun _ => OK tt |}.

(** The same with another value for the stored vocabulary. *)
Definition with_CLASS_NAMES (stored : option (list string)) (w : World)
  : World :=
  {| stored_BUCKET_NAME := stored_BUCKET_NAME w;
     stored_CLASS_NAMES := stored;
     stored_test_image_folder := stored_test_image_folder w;
     region_name := region_name w;
     get_execution_role := get_execution_role w;
     head_bucket := head_bucket w;
     start_project_version := start_project_version w;
     listdir := listdir w;
     read := read w;
     detect_custom_labels := detect_custom_labels w;
     stop_project_version := stop_project_version w |}.

(** The same with the bucket living in another region. *)
Definition with_bucket_region (r : string) (w : World) : World :=
  {| stored_BUCKET_NAME := stored_BUCKET_NAME w;
     stored_CLASS_NAMES := stored_CLASS_NAMES w;
     stored_test_image_folder := stored_test_image_folder w;
     region_name := region_name w;
     get_execution_role := get_execution_role w;
     head_bucket := fun _ => OK r;
     start_project_version := start_project_version w;
     listdir := listdir w;
     read := read w;
     detect_custom_labels := detect_custom_labels w;
     stop_project_version := stop_project_version w |}.

(** Three rows with confidences 10, 50 and 90. *)
Definition sample_rows : list NormalizedDetection :=
  [ {| class_ix := 0; confidence := 10; x1 := 0; y1 := 0; x2 := 1; y2 := 1 |};
    {| class_ix := 1; confidence := 50; x1 := 0; y1 := 0; x2 := 1; y2 := 1 |};
    {| class_ix := 1; confidence := 90; x1 := 0; y1 := 0; x2 := 1; y2 := 1 |} ].

(** ** Reading a trace *)

(** [test_image_path] of a directory entry. *)
Definition image_path (cfg : Config) (test_image : string) : string :=
  test_image_folder cfg ++ "/" ++ test_image.

(** The files opened, in order. *)
Definition read_paths (t : list event) : list string :=
  flat_map (fun e => match e with ReadFile p => [p] | _ => [] end) t.

(** The payloads sent for inference, in order. *)
Definition detect_payloads (t : list event) : list (list Byte.byte) :=
  flat_map (fun e => match e with
                     | DetectCustomLabels _ payload _ => [payload]
                     | _ => []
                     end) t.

(** The images handed to the renderer, in order. *)
Definition rendered_paths (t : list event) : list string :=
  flat_map (fun e => match e with
                     | VisualizeDetection p _ _ _ => [p]
                     | _ => []
                     end) t.

Definition is_stop (e : event) : bool :=
  match e with StopProjectVersion _ => true | _ => false end.

Definition is_print (e : event) : bool :=
  match e with PrintLine _ => true | _ => false end.

(** The events of the loop of step 7. *)
Definition is_loop_event (e : event) : bool :=
  match e with
  | ReadFile _ | DetectCustomLabels _ _ _ | DisplayHTML _
  | VisualizeDetection _ _ _ _ => true
  | _ => false
  end.

Definition region_warning : string :=
  "WARNING: Rekognition Custom Labels functionality is only available in us-east-1 at launch".

(** Step 6a goes through: the three values are stored and truthy, the role
    lookup answers, and the bucket reports the session's region. *)
Definition setup_succeeds (w : World) (cfg : Config) (region : string)
  : Prop :=
  stored_BUCKET_NAME w = Some (BUCKET_NAME cfg)
  /\ str_truthy (BUCKET_NAME cfg) = true
  /\ stored_CLASS_NAMES w = Some (CLASS_NAMES cfg)
  /\ list_truthy (CLASS_NAMES cfg) = true
  /\ stored_test_image_folder w = Some (test_image_folder cfg)
  /\ str_truthy (test_image_folder cfg) = true
  /\ (exists role, get_execution_role w = OK role)
  /\ head_bucket w (BUCKET_NAME cfg) = OK region
  /\ region_name w = Some region.

(** What step 6a leaves in the trace when it goes through. *)
Definition setup_events (cfg : Config) (region : string) : list event :=
  [PipUpgrade; GetExecutionRole; HeadBucket (BUCKET_NAME cfg)]
  ++ (if String.eqb "us-east-1" region then []
      else [PrintLine region_warning]).

(** Steps 6b, 7 and clean-up, as [notebook] chains them. *)
Definition after_setup (w : World) (cfg : Config) (model_arn : string)
  (override_confidence : option float) : cell unit :=
  _ <~ cell_deploy w model_arn ;;
  _ <~ cell_inference w cfg model_arn override_confidence ;;
  cell_cleanup w model_arn.

(** The events of step 6a. *)
Definition is_setup_event (e : event) : bool :=
  match e with
  | PipUpgrade | GetExecutionRole | HeadBucket _ | PrintLine _ => true
  | _ => false
  end.

(** What holds of every event of the loop under configuration [cfg]: a file
    read or rendered is an entry of the listing of the test folder, and the
    renderer gets the configured vocabulary. *)
Definition within_configuration (w : World) (cfg : Config) (e : event)
  : Prop :=
  let listed p :=
    exists names n,
      listdir w (test_image_folder cfg) = OK names
      /\ In n names /\ p = image_path cfg n in
  match e with
  | ReadFile p => listed p
  | VisualizeDetection p _ classes _ => listed p /\ classes = CLASS_NAMES cfg
  | _ => True
  end.

(** The three ways the loop body raises for a directory entry: the file
    cannot be read, the service refuses the request, or a reported name is
    not in the vocabulary. *)
Definition processing_raises (w : World) (cfg : Config) (model_arn : string)
  (override_confidence : option float) (test_image : string) (e : exn)
  : Prop :=
  read w (image_path cfg test_image) = Err e
  \/ exists payload,
       read w (image_path cfg test_image) = OK payload
       /\ (detect_custom_labels w model_arn payload override_confidence
           = Err e
           \/ exists response,
                detect_custom_labels w model_arn payload override_confidence
                = OK response
                /\ result (CLASS_NAMES cfg) (CustomLabels response) = Err e).

(** A stored value that passes its assertion. *)
Definition present {A : Type} (stored : option A) (truthy : A -> bool)
  : Prop :=
  exists v, stored = Some v /\ truthy v = true.

(** The exception of [%store -r name] and [assert name, "name missing from
    IPython store"] for a missing value. *)
Definition store_error {A : Type} (name : string) (stored : option A)
  : exn :=
  match stored with
  | None => NameError name
  | Some _ => AssertionError (name ++ " missing from IPython store")
  end.

(** A cell whose events and outcome do not depend on the trace so far. *)
Definition trace_independent {A : Type} (c : cell A) : Prop :=
  forall t, c t = ((t ++ fst (c []))%list, snd (c [])).

(** Two test images; the service knows the first and has no running model
    for any other payload. *)
Definition two_image_world : World :=
  {| stored_BUCKET_NAME := Some "bootsncats-data";
     stored_CLASS_NAMES := Some ["boots"; "cats"];
     stored_test_image_folder := Some "data/test";
     region_name := Some "eu-west-1";
     get_execution_role := OK "arn:aws:iam::123456789012:role/notebook";
     head_bucket := fun _ => OK "eu-west-1";
     start_project_version := fun _ _ => OK tt;
     listdir := fun _ => OK ["cat.jpg"; "boot.jpg"];
     read := fun p =>
       if String.eqb p "data/test/cat.jpg" then OK [Byte.x63]
       else OK [Byte.x62];
     detect_custom_labels := fun _ payload _ =>
       match payload with
       | [Byte.x63] =>
           OK {| CustomLabels := [detection "cats" 92.5 0.1 0.2 0.3 0.4] |}
       | _ => Err (ClientError "DetectCustomLabels")
       end;
     stop_project_version := fun _ => OK tt |}.

(** The same with another directory listing. *)
Definition with_listdir (names : list string) (w : World) : World :=
  {| stored_BUCKET_NAME := stored_BUCKET_NAME w;
     stored_CLASS_NAMES := stored_CLASS_NAMES w;
     stored_test_image_folder := stored_test_image_folder w;
     region_name := region_name w;
     get_execution_role := get_execution_role w;
     head_bucket := head_bucket w;
     start_project_version := start_project_version w;
     listdir := fun _ => OK names;
     read := read w;
     detect_custom_labels := detect_custom_labels w;
     stop_project_version := stop_project_version w |}.

Definition sample_config : Config :=
  {| BUCKET_NAME := "bootsncats-data";
     CLASS_NAMES := ["boots"; "cats"];
     test_image_folder := "data/test" |}.

(** ** Facts about [index] *)

Lemma index_present (l : list string) (x : string) :
  In x l -> exists i, index l x = OK i.
Proof.
  induction l as [|y l IH]; simpl; [tauto|].
  intros [Hy|Hin].
  - subst y. rewrite String.eqb_refl. now exists 0.
  - destruct (String.eqb y x); [now exists 0|].
    destruct (IH Hin) as [i Hi]. rewrite Hi. simpl. now exists (S i).
Qed.

Lemma index_absent (l : list string) (x : string) :
  ~ In x l -> index l x = Err (ValueError x).
Proof.
  induction l as [|y l IH]; simpl; [reflexivity|].
  intros Hn. destruct (String.eqb_spec y x) as [->|_]; [tauto|].
  rewrite IH by tauto. reflexivity.
Qed.

Lemma index_sound (l : list string) (x : string) (i : nat) :
  index l x = OK i ->
  nth_error l i = Some x /\ forall j, nth_error l j = Some x -> i <= j.
Proof.
  revert i. induction l as [|y l IH]; simpl; intros i H; [discriminate|].
  destruct (String.eqb_spec y x) as [->|Hne].
  - injection H as <-. split; [reflexivity|]. intros; lia.
  - destruct (index l x) as [k|e] eqn:Hk; simpl in H; [|discriminate].
    injection H as <-. destruct (IH k eq_refl) as [Hnth Hmin].
    split; [exact Hnth|].
    intros [|j] Hj; simpl in Hj.
    + congruence.
    + apply Hmin in Hj. lia.
Qed.

Lemma index_error (l : list string) (x : string) (e : exn) :
  index l x = Err e -> e = ValueError x /\ ~ In x l.
Proof.
  intros H. destruct (in_dec string_dec x l) as [Hin|Hout].
  - destruct (index_present l x Hin) as [i Hi]. congruence.
  - rewrite (index_absent l x Hout) in H. injection H as <-. now split.
Qed.

(** ** Facts about [list_map] *)

Lemma list_map_OK {A B : Type} (f : A -> res B) (xs : list A) :
  (forall x, In x xs -> exists y, f x = OK y) ->
  exists ys, list_map f xs = OK ys.
Proof.
  induction xs as [|x xs IH]; simpl; intros H; [now exists []|].
  destruct (H x (or_introl eq_refl)) as [y Hy]. rewrite Hy. simpl.
  destruct IH as [ys Hys]; [intros; apply H; now right|].
  rewrite Hys. simpl. now exists (y :: ys).
Qed.

Lemma list_map_pointwise {A B : Type} (f : A -> res B) (xs : list A)
  (ys : list B) :
  list_map f xs = OK ys ->
  length ys = length xs /\
  forall i x, nth_error xs i = Some x ->
    exists y, nth_error ys i = Some y /\ f x = OK y.
Proof.
  revert ys. induction xs as [|x xs IH]; simpl; intros ys H.
  - injection H as <-. split; [reflexivity|]. intros [|i] ? Hi; discriminate.
  - destruct (f x) as [y|e] eqn:Hy; simpl in H; [|discriminate].
    destruct (list_map f xs) as [ys'|e] eqn:Hys; simpl in H; [|discriminate].
    injection H as <-. destruct (IH ys' eq_refl) as [Hlen Hnth].
    split; [simpl; now rewrite Hlen|].
    intros [|i] x' Hi; simpl in Hi.
    + injection Hi as <-. now exists y.
    + now apply Hnth.
Qed.

Lemma normalize_label_inv (names : list string) (l : CustomLabel)
  (row : NormalizedDetection) :
  normalize_label names l = OK row ->
  index names (Name l) = OK (class_ix row) /\
  confidence row = Confidence l /\
  x1 row = Left (BoundingBox_ (Geometry_ l)) /\
  y1 row = Top (BoundingBox_ (Geometry_ l)) /\
  x2 row = (Left (BoundingBox_ (Geometry_ l))
            + Width (BoundingBox_ (Geometry_ l)))%float /\
  y2 row = (Top (BoundingBox_ (Geometry_ l))
            + Height (BoundingBox_ (Geometry_ l)))%float.
Proof.
  unfold normalize_label.
  destruct (index names (Name l)) as [k|e]; simpl; [|discriminate].
  intros H. injection H as <-. simpl. repeat split; reflexivity.
Qed.

Lemma normalize_label_present (names : list string) (l : CustomLabel) :
  In (Name l) names -> exists row, normalize_label names l = OK row.
Proof.
  intros Hin. destruct (index_present _ _ Hin) as [k Hk].
  unfold normalize_label. rewrite Hk. simpl. eauto.
Qed.

(** Two floats that differ under [PrimFloat.eqb] are different values. *)
Lemma float_neq (a b : float) : (a =? a)%float = true ->
  (a =? b)%float = false -> a <> b.
Proof. intros Ha Hab ->. congruence. Qed.

(** [result] raises only for a label whose name is not in the vocabulary,
    and then with the [ValueError] of that name. *)
Lemma result_error (names : list string) (labels : list CustomLabel)
  (e : exn) :
  result names labels = Err e ->
  exists l, In l labels /\ ~ In (Name l) names /\ e = ValueError (Name l).
Proof.
  unfold result. induction labels as [|l labels IH]; simpl; [discriminate|].
  unfold normalize_label at 1.
  destruct (index names (Name l)) as [k|e'] eqn:Hk; simpl.
  - destruct (list_map (normalize_label names) labels) as [rows|e'];
      simpl; [discriminate|].
    intros H. destruct (IH H) as (l' & Hin & Hout & He).
    exists l'. split; [now right|now split].
  - intros H. assert (e' = e) by congruence. subst e'.
    destruct (index_error _ _ _ Hk) as [-> Hout].
    exists l. split; [now left|now split].
Qed.

(** ** The normaliser, claim by claim *)

(** C1: for a detection with bounding box (left, top, width, height) whose
    name is in the vocabulary, the normalised row has [x1 = left],
    [y1 = top], [x2 = left + width] and [y2 = top + height], where [+] is
    the program's float addition and nothing is clamped: the equations hold
    for all floats, inside [0,1] or not. *)
Theorem normalize_label_corners (names : list string) (name : string)
  (conf left top width height : float) :
  In name names ->
  exists row,
    normalize_label names (detection name conf left top width height) = OK row
    /\ x1 row = left /\ y1 row = top
    /\ x2 row = (left + width)%float /\ y2 row = (top + height)%float.
Proof.
  intros Hin.
  destruct (normalize_label_present names
              (detection name conf left top width height) Hin) as [row Hrow].
  exists row. split; [exact Hrow|].
  apply normalize_label_inv in Hrow. simpl in Hrow. tauto.
Qed.

(** A box that leaves the unit square keeps its corners: x2 = 1.2 and
    y1 = -0.5 are reported as they are. *)
Lemma normalize_label_corners_witness :
  In "cats" ["boots"; "cats"] /\
  exists row,
    normalize_label ["boots"; "cats"]
      (detection "cats" 50 0.9 (-0.5) 0.3 2) = OK row
    /\ x1 row = 0.9%float /\ y1 row = (-0.5)%float
    /\ x2 row = (0.9 + 0.3)%float /\ y2 row = (-0.5 + 2)%float.
Proof.
  split; [simpl; tauto|].
  apply (normalize_label_corners ["boots"; "cats"] "cats" 50 0.9 (-0.5) 0.3 2).
  simpl; tauto.
Defined.

Example corners_not_clamped :
  normalize_label ["boots"; "cats"] (detection "cats" 50 0.9 (-0.5) 0.3 2)
  = OK {| class_ix := 1; confidence := 50; x1 := 0.9; y1 := -0.5;
          x2 := 1.2; y2 := 1.5 |}.
Proof. reflexivity. Qed.

(** C2, as the code has it: a name present in the vocabulary resolves to
    its position (the first one holding it); an absent name makes the
    normalisation raise [ValueError], which no [except LookupError] catches,
    and no row with a default ID is produced. *)
Theorem normalize_label_lookup (names : list string) (l : CustomLabel) :
  (In (Name l) names ->
   exists row, normalize_label names l = OK row
     /\ nth_error names (class_ix row) = Some (Name l)
     /\ forall j, nth_error names j = Some (Name l) -> class_ix row <= j)
  /\
  (~ In (Name l) names ->
   normalize_label names l = Err (ValueError (Name l))
   /\ is_LookupError (ValueError (Name l)) = false).
Proof.
  split.
  - intros Hin. destruct (normalize_label_present names l Hin) as [row Hrow].
    exists row. split; [exact Hrow|].
    apply normalize_label_inv in Hrow. destruct Hrow as [Hix _].
    exact (index_sound _ _ _ Hix).
  - intros Hout. unfold normalize_label.
    rewrite (index_absent _ _ Hout). split; reflexivity.
Qed.

Lemma normalize_label_lookup_witness :
  (exists row,
     normalize_label ["boots"; "cats"]
       (detection "cats" 92.5 0.1 0.2 0.3 0.4) = OK row
     /\ nth_error ["boots"; "cats"] (class_ix row) = Some "cats"
     /\ forall j, nth_error ["boots"; "cats"] j = Some "cats" ->
          class_ix row <= j)
  /\
  (normalize_label ["boots"; "cats"]
     (detection "hats" 92.5 0.1 0.2 0.3 0.4) = Err (ValueError "hats")
   /\ is_LookupError (ValueError "hats") = false).
Proof.
  split.
  - apply (proj1 (normalize_label_lookup ["boots"; "cats"]
                    (detection "cats" 92.5 0.1 0.2 0.3 0.4))).
    simpl; tauto.
  - apply (proj2 (normalize_label_lookup ["boots"; "cats"]
                    (detection "hats" 92.5 0.1 0.2 0.3 0.4))).
    simpl. intros [H|[H|[]]]; discriminate.
Defined.

(** C2 as stated fails: "hats" against ["boots", "cats"] does fail, but not
    with an exception of the [LookupError] class. *)
Lemma hats_not_LookupError :
  ~ (exists e,
       normalize_label ["boots"; "cats"]
         (detection "hats" 92.5 0.1 0.2 0.3 0.4) = Err e
       /\ is_LookupError e = true).
Proof.
  intros [e [H Hcls]]. vm_compute in H. injection H as <-. discriminate.
Qed.

(** C3: when every reported name is in the vocabulary, [result] has one row
    per label, the row at position [i] is the normalisation of the label at
    position [i], and the confidence plays no part in which rows exist:
    nothing is reordered, merged, dropped or filtered. *)
Theorem result_preserves_order (names : list string)
  (labels : list CustomLabel) :
  (forall l, In l labels -> In (Name l) names) ->
  exists rows,
    result names labels = OK rows
    /\ length rows = length labels
    /\ forall i l, nth_error labels i = Some l ->
         exists row, nth_error rows i = Some row
           /\ normalize_label names l = OK row
           /\ confidence row = Confidence l.
Proof.
  intros Hall. unfold result.
  destruct (list_map_OK (normalize_label names) labels) as [rows Hrows].
  { intros l Hl. apply normalize_label_present. now apply Hall. }
  exists rows. split; [exact Hrows|].
  destruct (list_map_pointwise _ _ _ Hrows) as [Hlen Hnth].
  split; [exact Hlen|].
  intros i l Hi. destruct (Hnth i l Hi) as [row [Hrow Hnorm]].
  exists row. repeat split; try assumption.
  now apply normalize_label_inv in Hnorm.
Qed.

(** Two equal detections and a low-confidence one, boots after cats: three
    rows come out, in that order. *)
Lemma result_preserves_order_witness :
  exists rows,
    result ["boots"; "cats"]
      [detection "cats" 92.5 0.1 0.2 0.3 0.4;
       detection "cats" 92.5 0.1 0.2 0.3 0.4;
       detection "boots" 0 0.5 0.5 0.1 0.1] = OK rows
    /\ length rows = 3
    /\ forall i l,
         nth_error [detection "cats" 92.5 0.1 0.2 0.3 0.4;
                    detection "cats" 92.5 0.1 0.2 0.3 0.4;
                    detection "boots" 0 0.5 0.5 0.1 0.1] i = Some l ->
         exists row, nth_error rows i = Some row
           /\ normalize_label ["boots"; "cats"] l = OK row
           /\ confidence row = Confidence l.
Proof.
  apply (result_preserves_order ["boots"; "cats"]
           [detection "cats" 92.5 0.1 0.2 0.3 0.4;
            detection "cats" 92.5 0.1 0.2 0.3 0.4;
            detection "boots" 0 0.5 0.5 0.1 0.1]).
  intros l [<-|[<-|[<-|[]]]]; simpl; tauto.
Defined.

(** An empty response gives an empty [result]. *)
Example result_empty (names : list string) : result names [] = OK [].
Proof. reflexivity. Qed.

(** C4, as the code computes it: the example detection normalises to class 1,
    confidence 92.5, x1 = 0.1, y1 = 0.2, x2 = 0.4, and y2 = 0.2 + 0.4, which
    in binary64 is 0.6000000000000001, the float next above 0.6. *)
Theorem boots_cats_example :
  result ["boots"; "cats"] [detection "cats" 92.5 0.1 0.2 0.3 0.4]
  = OK [ {| class_ix := 1; confidence := 92.5; x1 := 0.1; y1 := 0.2;
            x2 := 0.4; y2 := 0.6000000000000001 |} ].
Proof. reflexivity. Qed.

(** C4 as stated fails: the last component is not the float 0.6. *)
Lemma boots_cats_example_not_exact :
  result ["boots"; "cats"] [detection "cats" 92.5 0.1 0.2 0.3 0.4]
  <> OK [ {| class_ix := 1; confidence := 92.5; x1 := 0.1; y1 := 0.2;
             x2 := 0.4; y2 := 0.6 |} ].
Proof.
  intros H.
  apply (f_equal (fun r => match r with
                           | OK [row] => y2 row
                           | _ => 0%float
                           end)) in H.
  revert H. apply float_neq; reflexivity.
Qed.

(** The sum overshoots by one unit in the last place. *)
Example y2_next_up : (0.2 + 0.4)%float = next_up 0.6%float.
Proof. reflexivity. Qed.

(** C10: a name that occurs in the vocabulary, once or several times,
    resolves to its smallest position, the same for every detection that
    carries the name. *)
Theorem index_first_occurrence (names : list string) (name : string) :
  In name names ->
  exists i,
    index names name = OK i
    /\ nth_error names i = Some name
    /\ (forall j, nth_error names j = Some name -> i <= j)
    /\ forall l, Name l = name ->
         exists row, normalize_label names l = OK row /\ class_ix row = i.
Proof.
  intros Hin. destruct (index_present _ _ Hin) as [i Hi].
  exists i. split; [exact Hi|].
  destruct (index_sound _ _ _ Hi) as [Hnth Hmin].
  split; [exact Hnth|]. split; [exact Hmin|].
  intros l <-. unfold normalize_label. rewrite Hi. simpl. eauto.
Qed.

(** "cats" at positions 1 and 3 resolves to 1. *)
Lemma index_first_occurrence_witness :
  index ["boots"; "cats"; "hats"; "cats"] "cats" = OK 1 /\
  exists i,
    index ["boots"; "cats"; "hats"; "cats"] "cats" = OK i
    /\ nth_error ["boots"; "cats"; "hats"; "cats"] i = Some "cats"
    /\ (forall j, nth_error ["boots"; "cats"; "hats"; "cats"] j = Some "cats"
          -> i <= j)
    /\ forall l, Name l = "cats" ->
         exists row,
           normalize_label ["boots"; "cats"; "hats"; "cats"] l = OK row
           /\ class_ix row = i.
Proof.
  split; [reflexivity|].
  apply (index_first_occurrence ["boots"; "cats"; "hats"; "cats"] "cats").
  simpl; tauto.
Defined.

(** ** Order on floats *)

Lemma SF_lt_le_trans (x y z : spec_float) :
  SFltb x y = true -> SFleb y z = true -> SFleb x z = true.
Proof.
  unfold SFltb, SFleb, SFcompare.
  destruct x as [sx|sx| |sx mx ex], y as [sy|sy| |sy my ey],
    z as [sz|sz| |sz mz ez];
    try destruct sx; try destruct sy; try destruct sz;
    try reflexivity; try discriminate;
    change (Pos.compare_cont Eq ?a ?b) with (Pos.compare a b);
    destruct (Z.compare_spec ex ey), (Z.compare_spec ey ez),
      (Z.compare_spec ex ez); try lia; try reflexivity; try discriminate;
    destruct (Pos.compare_spec mx my), (Pos.compare_spec my mz),
      (Pos.compare_spec mx mz); simpl; try lia; try reflexivity;
    try discriminate.
Qed.

Lemma float_lt_le_trans (t1 t2 c : float) :
  (t1 <? t2)%float = true -> (t2 <=? c)%float = true ->
  (t1 <=? c)%float = true.
Proof. rewrite ltb_spec, !leb_spec. apply SF_lt_le_trans. Qed.

Lemma filter_all {A : Type} (f : A -> bool) (l : list A) :
  Forall (fun x => f x = true) l -> filter f l = l.
Proof.
  induction 1 as [|x l Hx _ IH]; simpl; [reflexivity|].
  now rewrite Hx, IH.
Qed.

(** ** The renderer *)

(** C5: a detection is drawn exactly when its confidence is at least the
    threshold, and raising the threshold from [t1] to [t2] can only remove
    boxes: what is drawn at [t2] is drawn at [t1], and is what the higher
    threshold keeps of the lower threshold's output. *)
Theorem threshold_monotonic (img_file : string)
  (dets : list NormalizedDetection) (classes : list string)
  (t1 t2 : float) :
  (t1 <? t2)%float = true ->
  (forall t det,
     In det (visualize_detection img_file dets classes t) <->
     In det dets /\ (t <=? confidence det)%float = true)
  /\ incl (visualize_detection img_file dets classes t2)
          (visualize_detection img_file dets classes t1)
  /\ visualize_detection img_file dets classes t2
     = visualize_detection img_file
         (visualize_detection img_file dets classes t1) classes t2.
Proof.
  intros Hlt. unfold visualize_detection.
  split; [intros t det; apply filter_In|].
  split.
  - intros det Hin. apply filter_In in Hin. apply filter_In.
    destruct Hin as [Hin Hle]. split; [exact Hin|].
    exact (float_lt_le_trans _ _ _ Hlt Hle).
  - induction dets as [|d dets IH]; simpl; [reflexivity|].
    destruct (t2 <=? confidence d)%float eqn:H2.
    + rewrite (float_lt_le_trans _ _ _ Hlt H2). simpl.
      rewrite H2. now f_equal.
    + destruct (t1 <=? confidence d)%float; simpl; [rewrite H2|]; exact IH.
Qed.

(** Thresholds 20 and 60 on confidences 10, 50, 90: two boxes, then one. *)
Lemma threshold_monotonic_witness :
  (20 <? 60)%float = true /\
  visualize_detection "cat.jpg" sample_rows ["boots"; "cats"] 20
    = skipn 1 sample_rows /\
  visualize_detection "cat.jpg" sample_rows ["boots"; "cats"] 60
    = skipn 2 sample_rows /\
  incl (visualize_detection "cat.jpg" sample_rows ["boots"; "cats"] 60)
       (visualize_detection "cat.jpg" sample_rows ["boots"; "cats"] 20).
Proof.
  split; [reflexivity|]. split; [reflexivity|]. split; [reflexivity|].
  apply (threshold_monotonic "cat.jpg" sample_rows ["boots"; "cats"] 20 60).
  reflexivity.
Defined.

(** ** The notebook run *)

Lemma missing_restore {A : Type} (name msg : string) (stored : option A)
  (truthy : A -> bool) (t : list event) :
  missing stored truthy ->
  exists e, restore name stored truthy msg t = (t, Err e)
            /\ is_setup_error e = true.
Proof.
  unfold missing, restore. destruct stored as [v|].
  - intros ->. now exists (AssertionError msg).
  - intros _. now exists (NameError name).
Qed.

Lemma restore_cases {A : Type} (name msg : string) (stored : option A)
  (truthy : A -> bool) (t : list event) :
  (exists v, stored = Some v /\ truthy v = true
             /\ restore name stored truthy msg t = (t, OK v))
  \/ (exists e, restore name stored truthy msg t = (t, Err e)
                /\ is_setup_error e = true).
Proof.
  destruct stored as [v|]; [destruct (truthy v) eqn:Hv|].
  - left. exists v. unfold restore, and_then, assert. now rewrite Hv.
  - right. now apply missing_restore.
  - right. now apply missing_restore.
Qed.

(** C7: when the bucket name, the class vocabulary or the test-image folder
    is missing from the store, the run stops in the configuration cell with
    a setup error ([NameError] or the cell's [AssertionError]), having made
    no request to any AWS service. *)
Theorem missing_configuration_fails_fast (w : World) (model_arn : string)
  (override_confidence : option float) :
  missing (stored_BUCKET_NAME w) str_truthy
  \/ missing (stored_CLASS_NAMES w) list_truthy
  \/ missing (stored_test_image_folder w) str_truthy ->
  exists e,
    run w model_arn override_confidence = ([PipUpgrade], Err e)
    /\ is_setup_error e = true
    /\ forall ev, In ev (fst (run w model_arn override_confidence)) ->
         is_remote_call ev = false.
Proof.
  intros Hmiss.
  assert (Hrun : exists e,
    run w model_arn override_confidence = ([PipUpgrade], Err e)
    /\ is_setup_error e = true).
  { unfold run, notebook, cell_configuration, emit.
    unfold and_then at 1. simpl app.
    unfold and_then at 1. unfold and_then at 1.
    destruct (restore_cases "BUCKET_NAME"
                "BUCKET_NAME missing from IPython store"
                (stored_BUCKET_NAME w) str_truthy [PipUpgrade])
      as [(b & Hb & Hbt & ->)|(e & -> & He)]; [|now exists e].
    unfold and_then at 1.
    destruct (restore_cases "CLASS_NAMES"
                "CLASS_NAMES missing from IPython store"
                (stored_CLASS_NAMES w) list_truthy [PipUpgrade])
      as [(c & Hc & Hct & ->)|(e & -> & He)]; [|now exists e].
    unfold and_then at 1.
    destruct (restore_cases "test_image_folder"
                "test_image_folder missing from IPython store"
                (stored_test_image_folder w) str_truthy [PipUpgrade])
      as [(f & Hf & Hft & ->)|(e & -> & He)]; [|now exists e].
    exfalso. unfold missing in Hmiss. rewrite Hb, Hc, Hf in Hmiss.
    destruct Hmiss as [H|[H|H]]; congruence. }
  destruct Hrun as [e [Hrun He]]. exists e.
  split; [exact Hrun|]. split; [exact He|].
  rewrite Hrun. simpl. intros ev [<-|[]]. reflexivity.
Qed.

(** An empty stored vocabulary stops the run before any request. *)
Lemma missing_configuration_fails_fast_witness :
  exists e,
    run (with_CLASS_NAMES (Some []) sample_world) "arn:model" (Some 80%float)
      = ([PipUpgrade], Err e)
    /\ is_setup_error e = true
    /\ forall ev,
         In ev (fst (run (with_CLASS_NAMES (Some []) sample_world)
                       "arn:model" (Some 80%float))) ->
         is_remote_call ev = false.
Proof.
  apply (missing_configuration_fails_fast
           (with_CLASS_NAMES (Some []) sample_world) "arn:model"
           (Some 80%float)).
  right; left. reflexivity.
Defined.

Example missing_vocabulary_run :
  run (with_CLASS_NAMES None sample_world) "arn:model" (Some 80%float)
  = ([PipUpgrade], Err (NameError "CLASS_NAMES")).
Proof. reflexivity. Qed.

Example empty_vocabulary_run :
  run (with_CLASS_NAMES (Some []) sample_world) "arn:model" (Some 80%float)
  = ([PipUpgrade],
     Err (AssertionError "CLASS_NAMES missing from IPython store")).
Proof. reflexivity. Qed.

(** C8: with the configuration present and a session region [region],
    when the region reported for the bucket is another one, the comparison
    [bucket_region == region] fails the assertion and the run stops there:
    the only requests made are the role lookup and the bucket query, and no
    model is started, called or stopped. *)
Theorem region_mismatch_halts (w : World) (model_arn : string)
  (override_confidence : option float)
  (b f role region bucket_region : string) (c : list string) :
  stored_BUCKET_NAME w = Some b -> b <> "" ->
  stored_CLASS_NAMES w = Some c -> c <> [] ->
  stored_test_image_folder w = Some f -> f <> "" ->
  get_execution_role w = OK role ->
  region_name w = Some region ->
  head_bucket w b = OK bucket_region ->
  bucket_region <> region ->
  run w model_arn override_confidence
    = ([PipUpgrade; GetExecutionRole; HeadBucket b],
       Err (AssertionError (region_mismatch_msg b)))
  /\ forall ev, In ev (fst (run w model_arn override_confidence)) ->
       is_model_call ev = false.
Proof.
  intros Hb Hbne Hc Hcne Hf Hfne Hrole Hregion Hhead Hreg.
  assert (Hrun : run w model_arn override_confidence
    = ([PipUpgrade; GetExecutionRole; HeadBucket b],
       Err (AssertionError (region_mismatch_msg b)))).
  { unfold run, notebook, cell_configuration, cell_session, client, restore,
      emit, call, assert, and_then, ret, raise.
    rewrite Hb, Hc, Hf. simpl.
    assert (Hbt : str_truthy b = true).
    { unfold str_truthy. destruct (String.eqb_spec b ""); [tauto|reflexivity]. }
    assert (Hft : str_truthy f = true).
    { unfold str_truthy. destruct (String.eqb_spec f ""); [tauto|reflexivity]. }
    assert (Hct : list_truthy c = true) by (destruct c; [tauto|reflexivity]).
    rewrite Hbt, Hct, Hft. simpl. rewrite Hrole, Hregion.
    cbn -[region_eqb]. rewrite Hhead. cbn -[region_eqb].
    assert (Hne : region_eqb bucket_region (Some region) = false).
    { unfold region_eqb.
      destruct (String.eqb_spec bucket_region region); [congruence|reflexivity]. }
    rewrite Hne. reflexivity. }
  split; [exact Hrun|].
  rewrite Hrun. simpl. intros ev [<-|[<-|[<-|[]]]]; reflexivity.
Qed.

(** A bucket in eu-west-1 under a us-east-1 session. *)
Lemma region_mismatch_halts_witness :
  run (with_bucket_region "eu-west-1" sample_world) "arn:model"
      (Some 80%float)
    = ([PipUpgrade; GetExecutionRole; HeadBucket "bootsncats-data"],
       Err (AssertionError
         "Your S3 bucket bootsncats-data and this notebook need to be in the same region."))
  /\ forall ev,
       In ev (fst (run (with_bucket_region "eu-west-1" sample_world)
                     "arn:model" (Some 80%float))) ->
       is_model_call ev = false.
Proof.
  apply (region_mismatch_halts (with_bucket_region "eu-west-1" sample_world)
           "arn:model" (Some 80%float) "bootsncats-data" "data/test"
           "arn:aws:iam::123456789012:role/notebook" "us-east-1" "eu-west-1"
           ["boots"; "cats"]);
    try reflexivity; simpl; discriminate.
Defined.

(** A session without a region never gets as far as the comparison: the
    Rekognition client cannot be created, and the bucket is not queried. *)
Lemma no_session_region_halts (w : World) (model_arn : string)
  (override_confidence : option float) (b f role : string)
  (c : list string) :
  stored_BUCKET_NAME w = Some b -> b <> "" ->
  stored_CLASS_NAMES w = Some c -> c <> [] ->
  stored_test_image_folder w = Some f -> f <> "" ->
  get_execution_role w = OK role ->
  region_name w = None ->
  run w model_arn override_confidence
    = ([PipUpgrade; GetExecutionRole], Err NoRegionError).
Proof.
  intros Hb Hbne Hc Hcne Hf Hfne Hrole Hregion.
  unfold run, notebook, cell_configuration, cell_session, client, restore,
    emit, call, assert, and_then, ret, raise.
  rewrite Hb, Hc, Hf. simpl.
  assert (Hbt : str_truthy b = true).
  { unfold str_truthy. destruct (String.eqb_spec b ""); [tauto|reflexivity]. }
  assert (Hft : str_truthy f = true).
  { unfold str_truthy. destruct (String.eqb_spec f ""); [tauto|reflexivity]. }
  assert (Hct : list_truthy c = true) by (destruct c; [tauto|reflexivity]).
  rewrite Hbt, Hct, Hft. simpl. rewrite Hrole, Hregion. reflexivity.
Qed.

(** With matching regions the same world runs to the end. *)
Example sample_run :
  run sample_world "arn:model" (Some 80%float)
  = ([PipUpgrade; GetExecutionRole; HeadBucket "bootsncats-data";
      StartProjectVersion "arn:model" 1;
      ListDir "data/test"; ReadFile "data/test/cat.jpg";
      DetectCustomLabels "arn:model" [] (Some 80%float);
      DisplayHTML "<h4>cat.jpg</h4>";
      VisualizeDetection "data/test/cat.jpg"
        [ {| class_ix := 1; confidence := 92.5; x1 := 0.1; y1 := 0.2;
             x2 := 0.4; y2 := 0.6000000000000001 |} ]
        ["boots"; "cats"] 0;
      StopProjectVersion "arn:model"],
     OK tt).
Proof. reflexivity. Qed.

(** ** Invariants of the trace *)

Section TraceInvariants.

Variable P : event -> Prop.

Lemma trace_inv_and_then {A B : Type} (c : cell A) (k : A -> cell B) :
  trace_inv P c -> (forall a, trace_inv P (k a)) ->
  trace_inv P (and_then c k).
Proof.
  intros Hc Hk t Ht. unfold and_then. specialize (Hc t Ht).
  destruct (c t) as [t' [a|e]]; simpl in *; [now apply Hk|exact Hc].
Qed.

Lemma trace_inv_call {A : Type} (e : event) (r : res A) :
  P e -> trace_inv P (call e r).
Proof.
  intros He t Ht. simpl. apply Forall_app. split; [exact Ht|now constructor].
Qed.

Lemma trace_inv_emit (e : event) : P e -> trace_inv P (emit e).
Proof.
  intros He t Ht. simpl. apply Forall_app. split; [exact Ht|now constructor].
Qed.

Lemma trace_inv_pure {A : Type} (c : cell A) :
  (forall t, fst (c t) = t) -> trace_inv P c.
Proof. intros H t Ht. now rewrite H. Qed.

Lemma trace_inv_restore {A : Type} (name msg : string)
  (stored : option A) (truthy : A -> bool) :
  trace_inv P (restore name stored truthy msg).
Proof.
  apply trace_inv_pure. intros t. unfold restore, and_then, assert.
  destruct stored as [v|]; [destruct (truthy v)|]; reflexivity.
Qed.

Lemma trace_inv_client (service : string) (region : option string) :
  trace_inv P (client service region).
Proof.
  apply trace_inv_pure. intros t. destruct region; reflexivity.
Qed.

Lemma trace_inv_for_each {A : Type} (xs : list A) (body : A -> cell unit) :
  (forall x, trace_inv P (body x)) -> trace_inv P (for_each xs body).
Proof.
  intros Hbody. induction xs as [|x xs IH]; simpl.
  - now apply trace_inv_pure.
  - apply trace_inv_and_then; [apply Hbody|intros _; exact IH].
Qed.

End TraceInvariants.

(** Walks through the cells of [notebook]: every event outside the loop
    body must satisfy the invariant trivially, the loop body by [body]. *)
Ltac trace_inv_cells body :=
  unfold notebook, cell_configuration, cell_session, cell_deploy,
    cell_inference, cell_cleanup, assert;
  repeat first
    [ apply trace_inv_and_then; [|intros ?]
    | apply trace_inv_restore
    | apply trace_inv_client
    | apply trace_inv_for_each; intros ?; apply body
    | apply trace_inv_call; exact I
    | apply trace_inv_emit; exact I
    | apply trace_inv_pure; intros ?; reflexivity
    | match goal with
      | |- trace_inv _ (if ?b then _ else _) => destruct b
      end ].

Lemma process_image_renders (w : World) (cfg : Config) (model_arn : string)
  (override_confidence : option float) (test_image : string) :
  trace_inv (render_of_response w model_arn override_confidence)
            (process_image w cfg model_arn override_confidence test_image).
Proof.
  intros t Ht. unfold process_image, and_then, call, lift, emit.
  destruct (read w _) as [payload|e]; simpl.
  2:{ apply Forall_app. split; [exact Ht|now repeat constructor]. }
  destruct (detect_custom_labels w model_arn payload override_confidence)
    as [response|e] eqn:Hdet; simpl.
  2:{ rewrite <- app_assoc. apply Forall_app.
      split; [exact Ht|now repeat constructor]. }
  destruct (result (CLASS_NAMES cfg) (CustomLabels response))
    as [rows|e] eqn:Hrows; simpl.
  2:{ rewrite <- app_assoc. apply Forall_app.
      split; [exact Ht|now repeat constructor]. }
  rewrite <- !app_assoc. apply Forall_app. split; [exact Ht|].
  repeat constructor. simpl. eauto.
Qed.

Lemma notebook_renders (w : World) (model_arn : string)
  (override_confidence : option float) :
  trace_inv (render_of_response w model_arn override_confidence)
            (notebook w model_arn override_confidence).
Proof.
  trace_inv_cells process_image_renders.
Qed.

Lemma result_confidences (names : list string) (labels : list CustomLabel)
  (rows : list NormalizedDetection) (Q : float -> Prop) :
  result names labels = OK rows ->
  Forall (fun l => Q (Confidence l)) labels ->
  Forall (fun row => Q (confidence row)) rows.
Proof.
  unfold result. revert rows.
  induction labels as [|l labels IH]; simpl; intros rows H Hall.
  - apply (f_equal (fun r => match r with OK x => x | Err _ => [] end)) in H.
    simpl in H. subst rows. constructor.
  - destruct (normalize_label names l) as [row|e] eqn:Hrow; simpl in H;
      [|discriminate].
    destruct (list_map (normalize_label names) labels) as [rows'|e];
      simpl in H; [|discriminate].
    apply (f_equal (fun r => match r with OK x => x | Err _ => [] end)) in H.
    simpl in H. subst rows. inversion Hall as [|? ? Hl Hrest]; subst.
    constructor; [|now apply IH].
    apply normalize_label_inv in Hrow. destruct Hrow as (_ & -> & _).
    exact Hl.
Qed.

Lemma sample_world_in_contract : service_contract sample_world.
Proof.
  intros arn payload floor response H. simpl in H.
  apply (f_equal (fun r => match r with
                           | OK x => CustomLabels x
                           | Err _ => []
                           end)) in H.
  simpl in H. rewrite <- H. repeat constructor.
Qed.

(** ** The inference request *)

Lemma process_image_forwards (w : World) (cfg : Config) (model_arn : string)
  (override_confidence : option float) (test_image : string) :
  trace_inv (forwards_floor model_arn override_confidence)
            (process_image w cfg model_arn override_confidence test_image).
Proof.
  unfold process_image.
  repeat first
    [ apply trace_inv_and_then; [|intros ?]
    | apply trace_inv_call; simpl; tauto
    | apply trace_inv_emit; exact I
    | apply trace_inv_pure; intros ?; reflexivity ].
Qed.

(** Every inference request of a run is for the given model and passes the
    chosen floor through unchanged; the code neither omits the parameter
    when the floor is [None] nor checks that a number lies in [0,100]. *)
Lemma detect_requests_forward_floor (w : World) (model_arn : string)
  (override_confidence : option float) (arn : string)
  (payload : list Byte.byte) (floor : option float) :
  In (DetectCustomLabels arn payload floor)
     (fst (run w model_arn override_confidence)) ->
  arn = model_arn /\ floor = override_confidence.
Proof.
  intros Hin.
  assert (Hinv : trace_inv (forwards_floor model_arn override_confidence)
                   (notebook w model_arn override_confidence)).
  { trace_inv_cells process_image_forwards. }
  specialize (Hinv [] (Forall_nil _)). rewrite Forall_forall in Hinv.
  exact (Hinv _ Hin).
Qed.

Example floor_None_is_sent :
  In (DetectCustomLabels "arn:model" [] None)
     (fst (run sample_world "arn:model" None)).
Proof. simpl. do 6 right. left. reflexivity. Qed.

Example floor_out_of_range_is_sent :
  In (DetectCustomLabels "arn:model" [] (Some 250%float))
     (fst (run sample_world "arn:model" (Some 250%float))).
Proof. simpl. do 6 right. left. reflexivity. Qed.

(** ** More on the normaliser *)

Lemma OK_inj {A : Type} (a b : A) : OK a = OK b -> a = b.
Proof.
  intros H.
  exact (f_equal (fun r => match r with OK x => x | Err _ => a end) H).
Qed.

Lemma list_map_Forall2 {A B : Type} (f : A -> res B) (xs : list A)
  (ys : list B) :
  list_map f xs = OK ys -> Forall2 (fun x y => f x = OK y) xs ys.
Proof.
  revert ys. induction xs as [|x xs IH]; simpl; intros ys H.
  - apply OK_inj in H. subst ys. constructor.
  - destruct (f x) as [y|e] eqn:Hy; simpl in H; [|discriminate].
    destruct (list_map f xs) as [ys'|e]; simpl in H; [|discriminate].
    apply OK_inj in H. subst ys. constructor; [exact Hy|now apply IH].
Qed.

Lemma list_map_app {A B : Type} (f : A -> res B) (xs1 xs2 : list A) :
  list_map f (xs1 ++ xs2)
  = (ys1 <- list_map f xs1 ;; ys2 <- list_map f xs2 ;; OK (ys1 ++ ys2)%list).
Proof.
  induction xs1 as [|x xs1 IH]; simpl.
  - destruct (list_map f xs2); reflexivity.
  - destruct (f x) as [y|e]; simpl; [|reflexivity].
    rewrite IH. destruct (list_map f xs1) as [ys1|e]; simpl; [|reflexivity].
    destruct (list_map f xs2); reflexivity.
Qed.

Lemma index_app (names more : list string) (x : string) (i : nat) :
  index names x = OK i -> index (names ++ more) x = OK i.
Proof.
  revert i. induction names as [|y names IH]; simpl; intros i H;
    [discriminate|].
  destruct (String.eqb y x); [exact H|].
  destruct (index names x) as [k|e]; simpl in H; [|discriminate].
  now rewrite (IH k eq_refl).
Qed.

(** X1: in a [result] that was produced, every row's class ID is a valid
    position of the vocabulary and the name stored there is the name the
    service reported for that row's label: looking the ID up again gives
    the label's name back. *)
Theorem result_class_ix_resolves (names : list string)
  (labels : list CustomLabel) (rows : list NormalizedDetection) :
  result names labels = OK rows ->
  Forall2 (fun l row =>
             class_ix row < length names
             /\ nth_error names (class_ix row) = Some (Name l))
          labels rows.
Proof.
  intros H. apply list_map_Forall2 in H.
  eapply Forall2_impl; [|exact H].
  intros l row Hrow. apply normalize_label_inv in Hrow.
  destruct Hrow as [Hix _]. apply index_sound in Hix.
  destruct Hix as [Hnth _]. split; [|exact Hnth].
  apply nth_error_Some. congruence.
Qed.

Lemma result_class_ix_resolves_witness :
  Forall2 (fun l row =>
             class_ix row < 2
             /\ nth_error ["boots"; "cats"] (class_ix row) = Some (Name l))
    [detection "cats" 92.5 0.1 0.2 0.3 0.4; detection "boots" 10 0 0 1 1]
    [ {| class_ix := 1; confidence := 92.5; x1 := 0.1; y1 := 0.2;
         x2 := 0.4; y2 := 0.6000000000000001 |};
      {| class_ix := 0; confidence := 10; x1 := 0; y1 := 0;
         x2 := 1; y2 := 1 |} ].
Proof.
  apply (result_class_ix_resolves ["boots"; "cats"]
           [detection "cats" 92.5 0.1 0.2 0.3 0.4;
            detection "boots" 10 0 0 1 1]).
  reflexivity.
Defined.

(** X2: two normalised labels carry the same class ID exactly when the
    service gave them the same name; distinct names never share an ID, even
    in a vocabulary with repeated entries. *)
Theorem class_ix_injective (names : list string) (l1 l2 : CustomLabel)
  (r1 r2 : NormalizedDetection) :
  normalize_label names l1 = OK r1 ->
  normalize_label names l2 = OK r2 ->
  (class_ix r1 = class_ix r2 <-> Name l1 = Name l2).
Proof.
  intros H1 H2.
  apply normalize_label_inv in H1. apply normalize_label_inv in H2.
  destruct H1 as [H1 _], H2 as [H2 _]. split.
  - intros Heq. apply index_sound in H1. apply index_sound in H2.
    destruct H1 as [H1 _], H2 as [H2 _]. congruence.
  - intros Heq. rewrite Heq in H1. rewrite H1 in H2. now apply OK_inj in H2.
Qed.

Lemma class_ix_injective_witness :
  class_ix {| class_ix := 1; confidence := 92.5; x1 := 0.1; y1 := 0.2;
              x2 := 0.4; y2 := 0.6000000000000001 |}
  = class_ix {| class_ix := 1; confidence := 10; x1 := 0; y1 := 0;
                x2 := 1; y2 := 1 |}
  <-> Name (detection "cats" 92.5 0.1 0.2 0.3 0.4)
      = Name (detection "cats" 10 0 0 1 1).
Proof.
  apply (class_ix_injective ["boots"; "cats"; "cats"]
           (detection "cats" 92.5 0.1 0.2 0.3 0.4)
           (detection "cats" 10 0 0 1 1)); reflexivity.
Defined.

(** X3: appending names to the end of the vocabulary changes no result
    that was produced: the class ID of a name never depends on what follows
    it in the list. *)
Theorem result_vocabulary_extension (names more : list string)
  (labels : list CustomLabel) (rows : list NormalizedDetection) :
  result names labels = OK rows ->
  result (names ++ more) labels = OK rows.
Proof.
  unfold result. revert rows.
  induction labels as [|l labels IH]; simpl; intros rows H; [exact H|].
  destruct (normalize_label names l) as [row|e] eqn:Hrow; simpl in H;
    [|discriminate].
  destruct (list_map (normalize_label names) labels) as [rows'|e];
    simpl in H; [|discriminate].
  rewrite (IH rows' eq_refl).
  assert (Hext : normalize_label (names ++ more) l = OK row).
  { unfold normalize_label in *.
    destruct (index names (Name l)) as [k|e] eqn:Hk; simpl in Hrow;
      [|discriminate].
    now rewrite (index_app _ more _ _ Hk). }
  rewrite Hext. exact H.
Qed.

Lemma result_vocabulary_extension_witness :
  result (["boots"; "cats"] ++ ["hats"; "boots"])
    [detection "cats" 92.5 0.1 0.2 0.3 0.4]
  = OK [ {| class_ix := 1; confidence := 92.5; x1 := 0.1; y1 := 0.2;
            x2 := 0.4; y2 := 0.6000000000000001 |} ].
Proof.
  apply (result_vocabulary_extension ["boots"; "cats"] ["hats"; "boots"]).
  reflexivity.
Defined.

(** X4: normalising two responses one after the other and joining the rows
    is the same as normalising the joined response; when either part
    raises, so does the whole, with the first part's exception taking
    precedence. *)
Theorem result_app (names : list string) (labels1 labels2 : list CustomLabel) :
  result names (labels1 ++ labels2)
  = (rows1 <- result names labels1 ;;
     rows2 <- result names labels2 ;;
     OK (rows1 ++ rows2)%list).
Proof. unfold result. apply list_map_app. Qed.

(** X5: the exception of a failing [result] is the [ValueError] of the
    first label whose name is not in the vocabulary; the labels after it
    play no part. *)
Theorem result_first_absent (names : list string)
  (before after : list CustomLabel) (l : CustomLabel) :
  (forall p, In p before -> In (Name p) names) ->
  ~ In (Name l) names ->
  result names (before ++ l :: after) = Err (ValueError (Name l)).
Proof.
  intros Hbefore Hl. unfold result. rewrite list_map_app.
  destruct (list_map_OK (normalize_label names) before) as [rows Hrows].
  { intros p Hp. apply normalize_label_present. now apply Hbefore. }
  rewrite Hrows. simpl.
  unfold normalize_label at 1. now rewrite (index_absent _ _ Hl).
Qed.

Lemma result_first_absent_witness :
  result ["boots"; "cats"]
    ([detection "cats" 92.5 0.1 0.2 0.3 0.4]
     ++ detection "hats" 50 0 0 1 1
        :: [detection "boots" 10 0 0 1 1; detection "gloves" 10 0 0 1 1])
  = Err (ValueError "hats").
Proof.
  apply (result_first_absent ["boots"; "cats"]
           [detection "cats" 92.5 0.1 0.2 0.3 0.4]
           [detection "boots" 10 0 0 1 1; detection "gloves" 10 0 0 1 1]
           (detection "hats" 50 0 0 1 1)).
  - intros p [<-|[]]. simpl; tauto.
  - simpl. intros [H|[H|[]]]; discriminate.
Defined.

(** ** Cells only append to the trace *)

Lemma independent_pure {A : Type} (c : cell A) :
  (forall t, c t = (t, snd (c []))) -> trace_independent c.
Proof.
  intros H t. rewrite (H t). rewrite (H []). simpl. now rewrite app_nil_r.
Qed.

Lemma independent_call {A : Type} (e : event) (r : res A) :
  trace_independent (call e r).
Proof. intros t. reflexivity. Qed.

Lemma independent_emit (e : event) : trace_independent (emit e).
Proof. intros t. reflexivity. Qed.

Lemma independent_and_then {A B : Type} (c : cell A) (k : A -> cell B) :
  trace_independent c -> (forall a, trace_independent (k a)) ->
  trace_independent (and_then c k).
Proof.
  intros Hc Hk t. unfold and_then. rewrite (Hc t).
  destruct (c []) as [s [a|e]]; simpl; [|reflexivity].
  rewrite (Hk a (t ++ s)%list), (Hk a s). simpl. now rewrite app_assoc.
Qed.

Lemma independent_for_each {A : Type} (xs : list A) (body : A -> cell unit) :
  (forall x, trace_independent (body x)) ->
  trace_independent (for_each xs body).
Proof.
  intros Hbody. induction xs as [|x xs IH]; simpl.
  - now apply independent_pure.
  - apply independent_and_then; [apply Hbody|intros _; exact IH].
Qed.

Lemma process_image_independent (w : World) (cfg : Config)
  (model_arn : string) (override_confidence : option float)
  (test_image : string) :
  trace_independent
    (process_image w cfg model_arn override_confidence test_image).
Proof.
  unfold process_image.
  repeat first
    [ apply independent_and_then; [|intros ?]
    | apply independent_call
    | apply independent_emit
    | apply independent_pure; intros ?; reflexivity ].
Qed.

Lemma loop_independent (w : World) (cfg : Config) (model_arn : string)
  (override_confidence : option float) (names : list string) :
  trace_independent
    (for_each names (process_image w cfg model_arn override_confidence)).
Proof.
  apply independent_for_each. intros x. apply process_image_independent.
Qed.

Lemma after_setup_independent (w : World) (cfg : Config)
  (model_arn : string) (override_confidence : option float) :
  trace_independent (after_setup w cfg model_arn override_confidence).
Proof.
  unfold after_setup, cell_deploy, cell_inference, cell_cleanup.
  repeat first
    [ apply independent_and_then; [|intros ?]
    | apply loop_independent
    | apply independent_call ].
Qed.

(** ** The run, cell by cell *)

Lemma run_after_setup (w : World) (cfg : Config) (region : string)
  (model_arn : string) (override_confidence : option float) :
  setup_succeeds w cfg region ->
  run w model_arn override_confidence
  = after_setup w cfg model_arn override_confidence
      (setup_events cfg region).
Proof.
  destruct cfg as [b c f]. unfold setup_succeeds. simpl.
  intros (Hb & Hbt & Hc & Hct & Hf & Hft & [role Hrole] & Hhead & Hreg).
  unfold run, notebook, cell_configuration, cell_session, client, restore,
    emit, call, assert, and_then, ret, raise, setup_events.
  rewrite Hb, Hc, Hf. cbn -[String.eqb]. rewrite Hbt, Hct, Hft.
  cbn -[String.eqb]. rewrite Hrole, Hreg. cbn -[String.eqb].
  rewrite Hhead. cbn -[String.eqb].
  rewrite String.eqb_refl.
  destruct (String.eqb "us-east-1" region); reflexivity.
Qed.

Lemma run_setup_cases (w : World) (model_arn : string)
  (override_confidence : option float) :
  (exists cfg region, setup_succeeds w cfg region)
  \/ (exists t e,
        run w model_arn override_confidence = (t, Err e)
        /\ Forall (fun ev => is_setup_event ev = true) t).
Proof.
  unfold run, notebook, cell_configuration, emit.
  unfold and_then at 1. simpl app.
  unfold and_then at 1. unfold and_then at 1.
  destruct (restore_cases "BUCKET_NAME"
              "BUCKET_NAME missing from IPython store"
              (stored_BUCKET_NAME w) str_truthy [PipUpgrade])
    as [(b & Hb & Hbt & ->)|(e & -> & He)];
    [|right; eexists; exists e; split; [reflexivity|now repeat constructor]].
  unfold and_then at 1.
  destruct (restore_cases "CLASS_NAMES"
              "CLASS_NAMES missing from IPython store"
              (stored_CLASS_NAMES w) list_truthy [PipUpgrade])
    as [(c & Hc & Hct & ->)|(e & -> & He)];
    [|right; eexists; exists e; split; [reflexivity|now repeat constructor]].
  unfold and_then at 1.
  destruct (restore_cases "test_image_folder"
              "test_image_folder missing from IPython store"
              (stored_test_image_folder w) str_truthy [PipUpgrade])
    as [(f & Hf & Hft & ->)|(e & -> & He)];
    [|right; eexists; exists e; split; [reflexivity|now repeat constructor]].
  unfold ret at 1. unfold and_then at 1.
  unfold cell_session, client, call, assert, and_then, ret, raise. simpl.
  destruct (get_execution_role w) as [role|e] eqn:Hrole;
    [|right; eexists; exists e; split; [reflexivity|now repeat constructor]].
  destruct (region_name w) as [r'|] eqn:Hregion;
    [|right; do 2 eexists; split; [reflexivity|now repeat constructor]].
  destruct (head_bucket w b) as [r|e] eqn:Hhead;
    [|right; eexists; exists e; split; [reflexivity|now repeat constructor]].
  destruct (region_eqb r (Some r')) eqn:Hreg.
  - left. exists {| BUCKET_NAME := b; CLASS_NAMES := c;
                    test_image_folder := f |}, r.
    unfold setup_succeeds. simpl. repeat split; try assumption.
    + now exists role.
    + unfold region_eqb in Hreg. apply String.eqb_eq in Hreg. now subst.
  - right. do 2 eexists. split; [reflexivity|now repeat constructor].
Qed.

Lemma setup_events_are_setup (cfg : Config) (region : string) :
  Forall (fun ev => is_setup_event ev = true) (setup_events cfg region).
Proof.
  unfold setup_events. destruct (String.eqb "us-east-1" region);
    now repeat constructor.
Qed.

Lemma not_in_setup_events (cfg : Config) (region : string) (ev : event) :
  is_setup_event ev = false -> ~ In ev (setup_events cfg region).
Proof.
  intros Hev Hin.
  pose proof (setup_events_are_setup cfg region) as Hall.
  rewrite Forall_forall in Hall. apply Hall in Hin. congruence.
Qed.

Lemma loop_events (w : World) (cfg : Config) (model_arn : string)
  (override_confidence : option float) (names : list string) :
  Forall (fun e => is_loop_event e = true)
    (fst (for_each names
            (process_image w cfg model_arn override_confidence) [])).
Proof.
  assert (Hinv : trace_inv (fun e => is_loop_event e = true)
            (for_each names
               (process_image w cfg model_arn override_confidence))).
  { apply trace_inv_for_each. intros x. unfold process_image.
    repeat first
      [ apply trace_inv_and_then; [|intros ?]
      | apply trace_inv_call; reflexivity
      | apply trace_inv_emit; reflexivity
      | apply trace_inv_pure; intros ?; reflexivity ]. }
  exact (Hinv [] (Forall_nil _)).
Qed.

(** What steps 6b, 7 and clean-up do from an empty trace. *)
Lemma after_setup_nil (w : World) (cfg : Config) (model_arn : string)
  (override_confidence : option float) :
  after_setup w cfg model_arn override_confidence []
  = match start_project_version w model_arn 1 with
    | Err e => ([StartProjectVersion model_arn 1], Err e)
    | OK _ =>
        match listdir w (test_image_folder cfg) with
        | Err e =>
            ([StartProjectVersion model_arn 1;
              ListDir (test_image_folder cfg)], Err e)
        | OK names =>
            let loop :=
              for_each names
                (process_image w cfg model_arn override_confidence) [] in
            match snd loop with
            | Err e =>
                (StartProjectVersion model_arn 1
                 :: ListDir (test_image_folder cfg) :: fst loop, Err e)
            | OK _ =>
                (StartProjectVersion model_arn 1
                 :: ListDir (test_image_folder cfg)
                 :: (fst loop ++ [StopProjectVersion model_arn])%list,
                 stop_project_version w model_arn)
            end
        end
    end.
Proof.
  unfold after_setup, cell_deploy, cell_inference, cell_cleanup, and_then,
    call. simpl.
  destruct (start_project_version w model_arn 1) as [u|e]; [|reflexivity].
  destruct (listdir w (test_image_folder cfg)) as [names|e]; [|reflexivity].
  rewrite (loop_independent w cfg model_arn override_confidence names
             [StartProjectVersion model_arn 1;
              ListDir (test_image_folder cfg)]).
  destruct (for_each names _ []) as [s [u'|e]]; reflexivity.
Qed.

Lemma run_structure (w : World) (cfg : Config) (region : string)
  (model_arn : string) (override_confidence : option float) :
  setup_succeeds w cfg region ->
  run w model_arn override_confidence
  = ((setup_events cfg region
      ++ fst (after_setup w cfg model_arn override_confidence []))%list,
     snd (after_setup w cfg model_arn override_confidence [])).
Proof.
  intros Hsetup. rewrite (run_after_setup _ _ _ _ _ Hsetup).
  apply after_setup_independent.
Qed.

Lemma setup_succeeds_unique (w : World) (cfg cfg' : Config)
  (region region' : string) :
  setup_succeeds w cfg region -> setup_succeeds w cfg' region' ->
  cfg = cfg' /\ region = region'.
Proof.
  destruct cfg as [b c f], cfg' as [b' c' f']. unfold setup_succeeds. simpl.
  intros (Hb & _ & Hc & _ & Hf & _ & _ & Hh & _)
         (Hb' & _ & Hc' & _ & Hf' & _ & _ & Hh' & _).
  assert (b = b') by congruence. subst b'.
  split; congruence.
Qed.

(** The run succeeds exactly along one path. *)
Lemma run_success (w : World) (model_arn : string)
  (override_confidence : option float) :
  snd (run w model_arn override_confidence) = OK tt ->
  exists cfg region names,
    setup_succeeds w cfg region
    /\ start_project_version w model_arn 1 = OK tt
    /\ listdir w (test_image_folder cfg) = OK names
    /\ snd (for_each names
              (process_image w cfg model_arn override_confidence) [])
       = OK tt
    /\ stop_project_version w model_arn = OK tt
    /\ fst (run w model_arn override_confidence)
       = (setup_events cfg region
          ++ StartProjectVersion model_arn 1
          :: ListDir (test_image_folder cfg)
          :: fst (for_each names
                    (process_image w cfg model_arn override_confidence) [])
          ++ [StopProjectVersion model_arn])%list.
Proof.
  intros Hok.
  destruct (run_setup_cases w model_arn override_confidence)
    as [(cfg & region & Hsetup)|(t & e & Hrun & _)].
  2:{ rewrite Hrun in Hok. discriminate. }
  rewrite (run_structure _ _ _ _ _ Hsetup) in Hok |- *. simpl in Hok |- *.
  rewrite after_setup_nil in Hok |- *.
  destruct (start_project_version w model_arn 1) as [[]|e] eqn:Hstart;
    [|discriminate].
  destruct (listdir w (test_image_folder cfg)) as [names|e] eqn:Hlist;
    [|discriminate].
  cbv zeta in Hok |- *.
  destruct (snd (for_each names _ [])) as [[]|e] eqn:Hloop; [|discriminate].
  simpl in Hok. exists cfg, region, names.
  split; [exact Hsetup|]. split; [reflexivity|]. split; [exact Hlist|].
  split; [exact Hloop|]. split; [exact Hok|reflexivity].
Qed.

(** ** The run, property by property *)

Lemma detect_requests_forward_floor_witness :
  In (DetectCustomLabels "arn:model" [] None)
     (fst (run sample_world "arn:model" None))
  /\ "arn:model" = "arn:model" /\ @None float = None.
Proof.
  assert (Hin : In (DetectCustomLabels "arn:model" [] None)
                   (fst (run sample_world "arn:model" None))).
  { simpl. do 6 right. left. reflexivity. }
  split; [exact Hin|].
  exact (detect_requests_forward_floor sample_world "arn:model" None
           "arn:model" [] None Hin).
Defined.

Lemma loop_event_kinds (e : event) :
  is_loop_event e = true ->
  is_setup_event e = false /\ is_stop e = false /\ is_print e = false
  /\ is_model_call e = match e with
                       | DetectCustomLabels _ _ _ => true
                       | _ => false
                       end.
Proof. destruct e; simpl; intros H; try discriminate; now repeat split. Qed.

(** X7: an inference request is only ever made after step 6a went through
    (values present, bucket in the session's region) and after the request
    to start this model with one inference unit was made and answered; in
    the trace that start request and the directory listing come first. *)
Theorem inference_only_after_deployment (w : World) (model_arn : string)
  (override_confidence : option float) (arn : string)
  (payload : list Byte.byte) (floor : option float) :
  In (DetectCustomLabels arn payload floor)
     (fst (run w model_arn override_confidence)) ->
  start_project_version w model_arn 1 = OK tt
  /\ exists cfg region rest,
       setup_succeeds w cfg region
       /\ fst (run w model_arn override_confidence)
          = (setup_events cfg region
             ++ StartProjectVersion model_arn 1
             :: ListDir (test_image_folder cfg) :: rest)%list
       /\ In (DetectCustomLabels arn payload floor) rest.
Proof.
  intros Hin.
  destruct (run_setup_cases w model_arn override_confidence)
    as [(cfg & region & Hsetup)|(t & e & Hrun & Hall)].
  2:{ rewrite Hrun in Hin. simpl in Hin. rewrite Forall_forall in Hall.
      apply Hall in Hin. discriminate. }
  rewrite (run_structure _ _ _ _ _ Hsetup) in Hin |- *.
  cbn [fst snd] in Hin |- *. rewrite after_setup_nil in Hin |- *.
  apply in_app_or in Hin. destruct Hin as [Hin|Hin].
  { now apply not_in_setup_events in Hin. }
  destruct (start_project_version w model_arn 1) as [[]|e].
  2:{ simpl in Hin. destruct Hin as [Hin|[]]. discriminate. }
  split; [reflexivity|].
  exists cfg, region.
  destruct (listdir w (test_image_folder cfg)) as [names|e].
  2:{ simpl in Hin. destruct Hin as [Hin|[Hin|[]]]; discriminate. }
  cbv zeta in Hin |- *.
  destruct (snd (for_each names _ [])) as [u|e]; cbn [fst snd] in Hin |- *;
    eexists; (split; [exact Hsetup|]); (split; [reflexivity|]);
    (destruct Hin as [Hin|[Hin|Hin]]; [discriminate|discriminate|exact Hin]).
Qed.

Lemma inference_only_after_deployment_witness :
  start_project_version sample_world "arn:model" 1 = OK tt
  /\ exists cfg region rest,
       setup_succeeds sample_world cfg region
       /\ fst (run sample_world "arn:model" (Some 80%float))
          = (setup_events cfg region
             ++ StartProjectVersion "arn:model" 1
             :: ListDir (test_image_folder cfg) :: rest)%list
       /\ In (DetectCustomLabels "arn:model" [] (Some 80%float)) rest.
Proof.
  apply (inference_only_after_deployment sample_world "arn:model"
           (Some 80%float) "arn:model" [] (Some 80%float)).
  simpl. do 6 right. left. reflexivity.
Defined.

(** X8: a run that ends without exception has asked to stop the model it
    started: the stop request for [model_arn] is the last event of the
    trace and the only stop request in it. *)
Theorem successful_run_stops_model (w : World) (model_arn : string)
  (override_confidence : option float) :
  snd (run w model_arn override_confidence) = OK tt ->
  exists t,
    fst (run w model_arn override_confidence)
    = (t ++ [StopProjectVersion model_arn])%list
    /\ In (StartProjectVersion model_arn 1) t
    /\ Forall (fun e => is_stop e = false) t.
Proof.
  intros Hok.
  destruct (run_success _ _ _ Hok)
    as (cfg & region & names & Hsetup & _ & _ & _ & _ & Htrace).
  rewrite Htrace.
  exists (setup_events cfg region
          ++ StartProjectVersion model_arn 1
          :: ListDir (test_image_folder cfg)
          :: fst (for_each names
                    (process_image w cfg model_arn override_confidence) []))
         %list.
  split; [now rewrite <- app_assoc|].
  split; [apply in_or_app; right; now left|].
  apply Forall_app. split.
  - eapply Forall_impl; [|apply setup_events_are_setup].
    intros e He. destruct e; simpl in *; congruence.
  - repeat constructor.
    eapply Forall_impl; [|apply loop_events].
    intros e He. now apply loop_event_kinds in He.
Qed.

Lemma successful_run_stops_model_witness :
  exists t,
    fst (run sample_world "arn:model" (Some 80%float))
    = (t ++ [StopProjectVersion "arn:model"])%list
    /\ In (StartProjectVersion "arn:model" 1) t
    /\ Forall (fun e => is_stop e = false) t.
Proof.
  apply (successful_run_stops_model sample_world "arn:model"
           (Some 80%float)).
  reflexivity.
Defined.

(** X9: when the run raises anywhere before the clean-up cell (the stop
    request itself would have been answered), no stop request is ever
    made: a model that was started stays running. *)
Theorem failed_run_never_stops_model (w : World) (model_arn : string)
  (override_confidence : option float) (e : exn) :
  snd (run w model_arn override_confidence) = Err e ->
  stop_project_version w model_arn = OK tt ->
  Forall (fun ev => is_stop ev = false)
    (fst (run w model_arn override_confidence)).
Proof.
  intros Herr Hstop.
  destruct (run_setup_cases w model_arn override_confidence)
    as [(cfg & region & Hsetup)|(t & e' & Hrun & Hall)].
  2:{ rewrite Hrun. simpl. eapply Forall_impl; [|exact Hall].
      intros ev Hev. destruct ev; simpl in *; congruence. }
  rewrite (run_structure _ _ _ _ _ Hsetup) in Herr |- *.
  cbn [fst snd] in Herr |- *. rewrite after_setup_nil in Herr |- *.
  apply Forall_app. split.
  { eapply Forall_impl; [|apply setup_events_are_setup].
    intros ev Hev. destruct ev; simpl in *; congruence. }
  destruct (start_project_version w model_arn 1) as [u|e1];
    [|now repeat constructor].
  destruct (listdir w (test_image_folder cfg)) as [names|e1];
    [|now repeat constructor].
  cbv zeta in Herr |- *.
  destruct (snd (for_each names _ [])) as [u'|e1]; simpl in Herr |- *.
  - congruence.
  - repeat constructor.
    eapply Forall_impl; [|apply loop_events].
    intros ev Hev. now apply loop_event_kinds in Hev.
Qed.

(** The second image's request is refused: the model was started and is
    not stopped. *)
Lemma failed_run_never_stops_model_witness :
  snd (run two_image_world "arn:model" (Some 80%float))
    = Err (ClientError "DetectCustomLabels")
  /\ In (StartProjectVersion "arn:model" 1)
        (fst (run two_image_world "arn:model" (Some 80%float)))
  /\ Forall (fun ev => is_stop ev = false)
       (fst (run two_image_world "arn:model" (Some 80%float))).
Proof.
  split; [reflexivity|]. split; [simpl; tauto|].
  apply (failed_run_never_stops_model two_image_world "arn:model"
           (Some 80%float) (ClientError "DetectCustomLabels"));
    reflexivity.
Defined.

Lemma processing_raises_snd (w : World) (cfg : Config) (model_arn : string)
  (override_confidence : option float) (test_image : string) (e : exn) :
  processing_raises w cfg model_arn override_confidence test_image e ->
  snd (process_image w cfg model_arn override_confidence test_image [])
  = Err e.
Proof.
  unfold processing_raises, process_image, image_path, and_then, call, lift,
    emit.
  intros [Hread|(payload & Hread & [Hdet|(response & Hdet & Hres)])];
    rewrite Hread; simpl; [reflexivity| |]; rewrite Hdet; simpl;
    [reflexivity|]. rewrite Hres. reflexivity.
Qed.

(** X10: the loop has no handler: once processing a directory entry raises,
    the entries after it are never read, sent or rendered, so the loop
    behaves as if the listing had ended with that entry, and it ends in an
    exception. *)
Theorem loop_stops_at_first_failure (w : World) (cfg : Config)
  (model_arn : string) (override_confidence : option float)
  (before after : list string) (x : string) (e : exn) (t : list event) :
  processing_raises w cfg model_arn override_confidence x e ->
  for_each (before ++ x :: after)
    (process_image w cfg model_arn override_confidence) t
  = for_each (before ++ [x])
      (process_image w cfg model_arn override_confidence) t
  /\ exists e',
       snd (for_each (before ++ x :: after)
              (process_image w cfg model_arn override_confidence) t)
       = Err e'.
Proof.
  intros Hraise. apply processing_raises_snd in Hraise.
  revert t. induction before as [|b before IH]; intros t; simpl.
  - unfold and_then.
    rewrite (process_image_independent w cfg model_arn override_confidence
               x t).
    rewrite Hraise. split; [reflexivity|now exists e].
  - unfold and_then.
    destruct (process_image w cfg model_arn override_confidence b t)
      as [t' [u|e']].
    + apply IH.
    + split; [reflexivity|now exists e'].
Qed.

(** The second of three entries is refused; the third is never opened. *)
Lemma loop_stops_at_first_failure_witness :
  for_each (["cat.jpg"] ++ "boot.jpg" :: ["hat.jpg"])
    (process_image two_image_world sample_config "arn:model" None) []
  = for_each (["cat.jpg"] ++ ["boot.jpg"])
      (process_image two_image_world sample_config "arn:model" None) []
  /\ exists e',
       snd (for_each (["cat.jpg"] ++ "boot.jpg" :: ["hat.jpg"])
              (process_image two_image_world sample_config "arn:model" None)
              [])
       = Err e'.
Proof.
  apply (loop_stops_at_first_failure two_image_world sample_config
           "arn:model" None ["cat.jpg"] ["hat.jpg"] "boot.jpg"
           (ClientError "DetectCustomLabels") []).
  right. exists [Byte.x62]. split; [reflexivity|]. left. reflexivity.
Defined.

Lemma process_image_success (w : World) (cfg : Config) (model_arn : string)
  (override_confidence : option float) (test_image : string) :
  snd (process_image w cfg model_arn override_confidence test_image [])
    = OK tt ->
  exists payload response rows,
    read w (image_path cfg test_image) = OK payload
    /\ detect_custom_labels w model_arn payload override_confidence
       = OK response
    /\ result (CLASS_NAMES cfg) (CustomLabels response) = OK rows
    /\ fst (process_image w cfg model_arn override_confidence test_image [])
       = [ReadFile (image_path cfg test_image);
          DetectCustomLabels model_arn payload override_confidence;
          DisplayHTML ("<h4>" ++ test_image ++ "</h4>");
          VisualizeDetection (image_path cfg test_image) rows
            (CLASS_NAMES cfg) 0%float].
Proof.
  unfold process_image, image_path, and_then, call, lift, emit.
  destruct (read w _) as [payload|e] eqn:Hread; simpl; [|discriminate].
  destruct (detect_custom_labels w model_arn payload override_confidence)
    as [response|e] eqn:Hdet; simpl; [|discriminate].
  destruct (result (CLASS_NAMES cfg) (CustomLabels response))
    as [rows|e] eqn:Hres; simpl; [|discriminate].
  intros _. exists payload, response, rows. now repeat split.
Qed.

Lemma loop_success (w : World) (cfg : Config) (model_arn : string)
  (override_confidence : option float) (names : list string) :
  snd (for_each names
         (process_image w cfg model_arn override_confidence) []) = OK tt ->
  let t := fst (for_each names
                  (process_image w cfg model_arn override_confidence) []) in
  read_paths t = map (image_path cfg) names
  /\ rendered_paths t = map (image_path cfg) names
  /\ Forall2 (fun n payload => read w (image_path cfg n) = OK payload)
       names (detect_payloads t).
Proof.
  induction names as [|n names IH]; simpl.
  - intros _. repeat split. constructor.
  - unfold and_then.
    destruct (process_image w cfg model_arn override_confidence n [])
      as [s [[]|e]] eqn:Hbody; [|discriminate].
    rewrite (loop_independent w cfg model_arn override_confidence names s).
    simpl. intros Hok. specialize (IH Hok). simpl in IH.
    destruct IH as (IHr & IHv & IHd).
    destruct (process_image_success w cfg model_arn override_confidence n)
      as (payload & response & rows & Hread & _ & _ & Hs).
    { now rewrite Hbody. }
    rewrite Hbody in Hs. simpl in Hs. subst s.
    unfold read_paths, rendered_paths, detect_payloads in *.
    rewrite !flat_map_app. simpl. rewrite IHr, IHv.
    repeat split. constructor; assumption.
Qed.

Lemma setup_events_projections (cfg : Config) (region : string) :
  read_paths (setup_events cfg region) = []
  /\ rendered_paths (setup_events cfg region) = []
  /\ detect_payloads (setup_events cfg region) = [].
Proof.
  unfold setup_events. destruct (String.eqb "us-east-1" region);
    repeat split.
Qed.

(** X11: in a run that ends without exception, each entry of the listing
    of the test folder is opened, sent and rendered exactly once, in
    listing order: the files read and the images rendered are
    folder/entry for each entry, and the payloads sent are the contents of
    those files. *)
Theorem one_request_per_image (w : World) (model_arn : string)
  (override_confidence : option float) :
  snd (run w model_arn override_confidence) = OK tt ->
  exists cfg names,
    stored_test_image_folder w = Some (test_image_folder cfg)
    /\ listdir w (test_image_folder cfg) = OK names
    /\ read_paths (fst (run w model_arn override_confidence))
       = map (image_path cfg) names
    /\ rendered_paths (fst (run w model_arn override_confidence))
       = map (image_path cfg) names
    /\ Forall2 (fun n payload => read w (image_path cfg n) = OK payload)
         names
         (detect_payloads (fst (run w model_arn override_confidence))).
Proof.
  intros Hok.
  destruct (run_success _ _ _ Hok)
    as (cfg & region & names & Hsetup & _ & Hlist & Hloop & _ & Htrace).
  exists cfg, names.
  split; [apply Hsetup|]. split; [exact Hlist|].
  rewrite Htrace.
  destruct (setup_events_projections cfg region) as (Sr & Sv & Sd).
  destruct (loop_success _ _ _ _ _ Hloop) as (Lr & Lv & Ld).
  unfold read_paths, rendered_paths, detect_payloads in *.
  rewrite !flat_map_app, Sr, Sv, Sd. simpl.
  rewrite !flat_map_app, Lr, Lv. simpl. rewrite !app_nil_r.
  now repeat split.
Qed.

Lemma one_request_per_image_witness :
  exists cfg names,
    stored_test_image_folder (with_listdir ["cat.jpg"; "cat.jpg"]
                                two_image_world)
      = Some (test_image_folder cfg)
    /\ listdir (with_listdir ["cat.jpg"; "cat.jpg"] two_image_world)
         (test_image_folder cfg) = OK names
    /\ read_paths
         (fst (run (with_listdir ["cat.jpg"; "cat.jpg"] two_image_world)
                 "arn:model" None))
       = map (image_path cfg) names
    /\ rendered_paths
         (fst (run (with_listdir ["cat.jpg"; "cat.jpg"] two_image_world)
                 "arn:model" None))
       = map (image_path cfg) names
    /\ Forall2 (fun n payload =>
                  read (with_listdir ["cat.jpg"; "cat.jpg"] two_image_world)
                    (image_path cfg n) = OK payload)
         names
         (detect_payloads
            (fst (run (with_listdir ["cat.jpg"; "cat.jpg"] two_image_world)
                    "arn:model" None))).
Proof.
  apply (one_request_per_image
           (with_listdir ["cat.jpg"; "cat.jpg"] two_image_world)
           "arn:model" None).
  reflexivity.
Defined.

Lemma after_setup_events (w : World) (cfg : Config) (model_arn : string)
  (override_confidence : option float) :
  Forall (fun e => is_setup_event e = false)
    (fst (after_setup w cfg model_arn override_confidence [])).
Proof.
  assert (Hloop : forall names,
    Forall (fun e => is_setup_event e = false)
      (fst (for_each names
              (process_image w cfg model_arn override_confidence) []))).
  { intros names. eapply Forall_impl; [|apply loop_events].
    intros e He. now apply loop_event_kinds in He. }
  rewrite after_setup_nil.
  destruct (start_project_version w model_arn 1) as [u|e];
    [|now repeat constructor].
  destruct (listdir w (test_image_folder cfg)) as [names|e];
    [|now repeat constructor].
  cbv zeta. destruct (snd (for_each names _ [])) as [u'|e]; simpl.
  - repeat constructor. apply Forall_app. split; [apply Hloop|].
    now repeat constructor.
  - repeat constructor. apply Hloop.
Qed.

(** X12: when the listing of the stored test folder is empty, no file is
    read, no inference request is made and nothing is displayed or
    rendered, whatever else happens in the run. *)
Theorem empty_folder_no_inference (w : World) (model_arn : string)
  (override_confidence : option float) (folder : string) :
  stored_test_image_folder w = Some folder ->
  listdir w folder = OK [] ->
  Forall (fun e => is_loop_event e = false)
    (fst (run w model_arn override_confidence)).
Proof.
  intros Hfolder Hlist.
  destruct (run_setup_cases w model_arn override_confidence)
    as [(cfg & region & Hsetup)|(t & e & Hrun & Hall)].
  2:{ rewrite Hrun. simpl. eapply Forall_impl; [|exact Hall].
      intros ev Hev. destruct ev; simpl in *; congruence. }
  assert (Hf : test_image_folder cfg = folder).
  { destruct Hsetup as (_ & _ & _ & _ & Hf & _). congruence. }
  rewrite (run_structure _ _ _ _ _ Hsetup). cbn [fst].
  apply Forall_app. split.
  { eapply Forall_impl; [|apply setup_events_are_setup].
    intros ev Hev. destruct ev; simpl in *; congruence. }
  rewrite after_setup_nil, Hf, Hlist.
  destruct (start_project_version w model_arn 1) as [u|e];
    simpl; now repeat constructor.
Qed.

Lemma empty_folder_no_inference_witness :
  run (with_listdir [] sample_world) "arn:model" (Some 80%float)
    = ([PipUpgrade; GetExecutionRole; HeadBucket "bootsncats-data";
        StartProjectVersion "arn:model" 1; ListDir "data/test";
        StopProjectVersion "arn:model"], OK tt)
  /\ Forall (fun e => is_loop_event e = false)
       (fst (run (with_listdir [] sample_world) "arn:model"
               (Some 80%float))).
Proof.
  split; [reflexivity|].
  apply (empty_folder_no_inference (with_listdir [] sample_world)
           "arn:model" (Some 80%float) "data/test"); reflexivity.
Defined.

(** X13: once step 6a has gone through, the only line the run prints is
    the warning about Custom Labels being limited to us-east-1, and it
    prints it exactly when the session's region is another one.  It is a
    warning only: the run goes on, and the next thing it does after the
    warning is to ask for the model to be started. *)
Theorem region_warning_printed (w : World) (model_arn : string)
  (override_confidence : option float) (cfg : Config) (region : string) :
  setup_succeeds w cfg region ->
  (forall text,
     In (PrintLine text) (fst (run w model_arn override_confidence))
     <-> text = region_warning /\ region <> "us-east-1")
  /\ (region <> "us-east-1" ->
      exists rest,
        fst (run w model_arn override_confidence)
        = PipUpgrade :: GetExecutionRole :: HeadBucket (BUCKET_NAME cfg)
          :: PrintLine region_warning
          :: StartProjectVersion model_arn 1 :: rest)
  /\ (region = "us-east-1" ->
      exists rest,
        fst (run w model_arn override_confidence)
        = PipUpgrade :: GetExecutionRole :: HeadBucket (BUCKET_NAME cfg)
          :: StartProjectVersion model_arn 1 :: rest).
Proof.
  intros Hsetup. rewrite (run_structure _ _ _ _ _ Hsetup). cbn [fst].
  assert (Hstart : exists rest,
            fst (after_setup w cfg model_arn override_confidence [])
            = StartProjectVersion model_arn 1 :: rest).
  { rewrite after_setup_nil.
    destruct (start_project_version w model_arn 1) as [u|e];
      [|now eexists].
    destruct (listdir w (test_image_folder cfg)) as [names|e];
      [|now eexists].
    cbv zeta. destruct (snd (for_each names _ [])); now eexists. }
  destruct Hstart as [rest Hrest].
  split; [|split].
  - intros text. rewrite in_app_iff. split.
    + intros [Hin|Hin].
      * unfold setup_events in Hin.
        destruct (String.eqb_spec "us-east-1" region) as [Heq|Hne];
          simpl in Hin.
        -- destruct Hin as [H|[H|[H|[]]]]; discriminate.
        -- destruct Hin as [H|[H|[H|[H|[]]]]]; try discriminate.
           split; [congruence|]. intros ->. now apply Hne.
      * pose proof (after_setup_events w cfg model_arn override_confidence)
          as Hall.
        rewrite Forall_forall in Hall. apply Hall in Hin. discriminate.
    + intros [-> Hne]. left. unfold setup_events.
      destruct (String.eqb_spec "us-east-1" region) as [Heq|_].
      * now subst region.
      * simpl. tauto.
  - intros Hne. exists rest. rewrite Hrest. unfold setup_events.
    destruct (String.eqb_spec "us-east-1" region) as [Heq|_];
      [now subst region|reflexivity].
  - intros ->. exists rest. rewrite Hrest. reflexivity.
Qed.

Lemma two_image_world_setup :
  setup_succeeds two_image_world sample_config "eu-west-1".
Proof.
  unfold setup_succeeds. simpl. repeat split.
  now exists "arn:aws:iam::123456789012:role/notebook".
Qed.

(** Under an eu-west-1 session the warning is printed and the start
    request follows it. *)
Lemma region_warning_printed_witness :
  In (PrintLine region_warning)
     (fst (run two_image_world "arn:model" None))
  /\ exists rest,
       fst (run two_image_world "arn:model" None)
       = PipUpgrade :: GetExecutionRole :: HeadBucket "bootsncats-data"
         :: PrintLine region_warning
         :: StartProjectVersion "arn:model" 1 :: rest.
Proof.
  pose proof (region_warning_printed two_image_world "arn:model" None
                sample_config "eu-west-1" two_image_world_setup)
    as (Hprint & Hgoes_on & _).
  split.
  - apply Hprint. split; [reflexivity|discriminate].
  - apply Hgoes_on. discriminate.
Defined.

Lemma store_error_restore {A : Type} (name : string) (stored : option A)
  (truthy : A -> bool) (t : list event) :
  missing stored truthy ->
  restore name stored truthy (name ++ " missing from IPython store") t
  = (t, Err (store_error name stored)).
Proof.
  unfold missing, restore, store_error, and_then, assert.
  destruct stored as [v|]; [intros ->|]; reflexivity.
Qed.

Lemma present_restore {A : Type} (name msg : string) (stored : option A)
  (truthy : A -> bool) (t : list event) :
  present stored truthy ->
  exists v, restore name stored truthy msg t = (t, OK v).
Proof.
  intros (v & -> & Hv). exists v. unfold restore, and_then, assert.
  now rewrite Hv.
Qed.

(** X14: step 6a checks the bucket name, then the vocabulary, then the test
    folder, and stops at the first one that is missing: the exception names
    that value ([NameError] when nothing is stored, the cell's
    [AssertionError] when the stored value is empty), whatever the state of
    the values after it. *)
Theorem configuration_reports_first_missing (w : World)
  (model_arn : string) (override_confidence : option float) :
  (missing (stored_BUCKET_NAME w) str_truthy ->
   run w model_arn override_confidence
   = ([PipUpgrade],
      Err (store_error "BUCKET_NAME" (stored_BUCKET_NAME w))))
  /\ (present (stored_BUCKET_NAME w) str_truthy ->
      missing (stored_CLASS_NAMES w) list_truthy ->
      run w model_arn override_confidence
      = ([PipUpgrade],
         Err (store_error "CLASS_NAMES" (stored_CLASS_NAMES w))))
  /\ (present (stored_BUCKET_NAME w) str_truthy ->
      present (stored_CLASS_NAMES w) list_truthy ->
      missing (stored_test_image_folder w) str_truthy ->
      run w model_arn override_confidence
      = ([PipUpgrade],
         Err (store_error "test_image_folder"
                (stored_test_image_folder w)))).
Proof.
  split; [|split];
    unfold run, notebook, cell_configuration, emit;
    unfold and_then at 1; simpl app;
    unfold and_then at 1; unfold and_then at 1.
  - intros Hb.
    change "BUCKET_NAME missing from IPython store"
      with ("BUCKET_NAME" ++ " missing from IPython store").
    now rewrite (store_error_restore _ _ _ _ Hb).
  - intros Hb Hc.
    destruct (present_restore "BUCKET_NAME"
                "BUCKET_NAME missing from IPython store" _ _ [PipUpgrade] Hb)
      as [b ->].
    unfold and_then at 1.
    change "CLASS_NAMES missing from IPython store"
      with ("CLASS_NAMES" ++ " missing from IPython store").
    now rewrite (store_error_restore _ _ _ _ Hc).
  - intros Hb Hc Hf.
    destruct (present_restore "BUCKET_NAME"
                "BUCKET_NAME missing from IPython store" _ _ [PipUpgrade] Hb)
      as [b ->].
    unfold and_then at 1.
    destruct (present_restore "CLASS_NAMES"
                "CLASS_NAMES missing from IPython store" _ _ [PipUpgrade] Hc)
      as [c ->].
    unfold and_then at 1.
    change "test_image_folder missing from IPython store"
      with ("test_image_folder" ++ " missing from IPython store").
    now rewrite (store_error_restore _ _ _ _ Hf).
Qed.

(** With the vocabulary empty and the folder not stored at all, the error
    is the vocabulary's. *)
Lemma configuration_reports_first_missing_witness :
  run (with_CLASS_NAMES (Some [])
         (mkWorld (Some "bootsncats-data") None None None
            (Err (ClientError "GetRole")) (fun _ => Err (ClientError "S3"))
            (fun _ _ => OK tt) (fun _ => OK []) (fun _ => OK [])
            (fun _ _ _ => Err (ClientError "DetectCustomLabels"))
            (fun _ => OK tt)))
      "arn:model" None
  = ([PipUpgrade],
     Err (AssertionError "CLASS_NAMES missing from IPython store")).
Proof.
  apply (proj1 (proj2 (configuration_reports_first_missing
           (with_CLASS_NAMES (Some [])
              (mkWorld (Some "bootsncats-data") None None None
                 (Err (ClientError "GetRole"))
                 (fun _ => Err (ClientError "S3"))
                 (fun _ _ => OK tt) (fun _ => OK []) (fun _ => OK [])
                 (fun _ _ _ => Err (ClientError "DetectCustomLabels"))
                 (fun _ => OK tt)))
           "arn:model" None))).
  - exists "bootsncats-data". split; reflexivity.
  - reflexivity.
Defined.

Lemma process_image_within (w : World) (cfg : Config) (model_arn : string)
  (override_confidence : option float) (names : list string) (n : string) :
  listdir w (test_image_folder cfg) = OK names -> In n names ->
  Forall (within_configuration w cfg)
    (fst (process_image w cfg model_arn override_confidence n [])).
Proof.
  intros Hlist Hin.
  assert (Hlisted : exists names' n',
            listdir w (test_image_folder cfg) = OK names'
            /\ In n' names' /\ image_path cfg n = image_path cfg n').
  { now exists names, n. }
  unfold process_image, and_then, call, lift, emit.
  fold (image_path cfg n).
  destruct (read w (image_path cfg n)) as [payload|e]; simpl;
    [|now repeat constructor].
  destruct (detect_custom_labels w model_arn payload override_confidence)
    as [response|e]; simpl; [|now repeat constructor].
  destruct (result (CLASS_NAMES cfg) (CustomLabels response)) as [rows|e];
    simpl; repeat constructor; simpl; auto.
Qed.

Lemma loop_within (w : World) (cfg : Config) (model_arn : string)
  (override_confidence : option float) (listing names : list string) :
  listdir w (test_image_folder cfg) = OK listing ->
  incl names listing ->
  Forall (within_configuration w cfg)
    (fst (for_each names
            (process_image w cfg model_arn override_confidence) [])).
Proof.
  intros Hlist. induction names as [|n names IH]; intros Hincl; simpl.
  - constructor.
  - unfold and_then.
    pose proof (process_image_within w cfg model_arn override_confidence
                  listing n Hlist (Hincl n (or_introl eq_refl))) as Hn.
    destruct (process_image w cfg model_arn override_confidence n [])
      as [s [u|e]]; simpl in Hn; [|exact Hn].
    rewrite (loop_independent w cfg model_arn override_confidence names s).
    simpl. apply Forall_app. split; [exact Hn|].
    apply IH. intros x Hx. apply Hincl. now right.
Qed.

(** X15: the loop stays within the configuration: every file it reads and
    every image it hands to the renderer is folder/entry for an entry of the
    listing of the stored test folder, and the renderer always receives the
    stored vocabulary as its class list. *)
Theorem loop_stays_within_configuration (w : World) (model_arn : string)
  (override_confidence : option float) (e : event) :
  In e (fst (run w model_arn override_confidence)) ->
  is_loop_event e = true ->
  exists cfg region,
    setup_succeeds w cfg region /\ within_configuration w cfg e.
Proof.
  intros Hin Hloop.
  destruct (run_setup_cases w model_arn override_confidence)
    as [(cfg & region & Hsetup)|(t & e' & Hrun & Hall)].
  2:{ rewrite Hrun in Hin. simpl in Hin. rewrite Forall_forall in Hall.
      apply Hall in Hin. apply loop_event_kinds in Hloop. intuition congruence. }
  exists cfg, region. split; [exact Hsetup|].
  rewrite (run_structure _ _ _ _ _ Hsetup) in Hin. cbn [fst] in Hin.
  apply in_app_or in Hin. destruct Hin as [Hin|Hin].
  { apply not_in_setup_events in Hin; [contradiction|].
    now apply loop_event_kinds in Hloop. }
  rewrite after_setup_nil in Hin.
  destruct (start_project_version w model_arn 1) as [u|e1].
  2:{ simpl in Hin. destruct Hin as [<-|[]]. discriminate. }
  destruct (listdir w (test_image_folder cfg)) as [names|e1] eqn:Hlist.
  2:{ simpl in Hin. destruct Hin as [<-|[<-|[]]]; discriminate. }
  cbv zeta in Hin.
  pose proof (loop_within w cfg model_arn override_confidence names names
                Hlist (incl_refl _)) as Hall.
  rewrite Forall_forall in Hall.
  destruct (snd (for_each names _ [])) as [u'|e1]; cbn [fst] in Hin;
    destruct Hin as [<-|[<-|Hin]]; try discriminate.
  - apply in_app_or in Hin. destruct Hin as [Hin|[<-|[]]];
      [now apply Hall|discriminate].
  - now apply Hall.
Qed.

Lemma loop_stays_within_configuration_witness :
  exists cfg region,
    setup_succeeds sample_world cfg region
    /\ within_configuration sample_world cfg
         (VisualizeDetection "data/test/cat.jpg"
            [ {| class_ix := 1; confidence := 92.5; x1 := 0.1; y1 := 0.2;
                 x2 := 0.4; y2 := 0.6000000000000001 |} ]
            ["boots"; "cats"] 0).
Proof.
  apply (loop_stays_within_configuration sample_world "arn:model"
           (Some 80%float)).
  - rewrite sample_run. simpl. do 8 right. left. reflexivity.
  - reflexivity.
Defined.

(** ** Every answered request is rendered in full *)

Lemma detect_event_inj (a a' : string) (p p' : list Byte.byte)
  (f f' : option float) :
  DetectCustomLabels a p f = DetectCustomLabels a' p' f' ->
  a = a' /\ p = p' /\ f = f'.
Proof.
  intros H. repeat split.
  - exact (f_equal (fun e => match e with
                             | DetectCustomLabels x _ _ => x
                             | _ => a
                             end) H).
  - exact (f_equal (fun e => match e with
                             | DetectCustomLabels _ x _ => x
                             | _ => p
                             end) H).
  - exact (f_equal (fun e => match e with
                             | DetectCustomLabels _ _ x => x
                             | _ => f
                             end) H).
Qed.

Lemma process_image_renders_response (w : World) (cfg : Config)
  (model_arn : string) (override_confidence : option float) (n : string)
  (a : string) (p : list Byte.byte) (f : option float)
  (response : Response) (rows : list NormalizedDetection) :
  In (DetectCustomLabels a p f)
     (fst (process_image w cfg model_arn override_confidence n [])) ->
  detect_custom_labels w a p f = OK response ->
  result (CLASS_NAMES cfg) (CustomLabels response) = OK rows ->
  In (VisualizeDetection (image_path cfg n) rows (CLASS_NAMES cfg) 0%float)
     (fst (process_image w cfg model_arn override_confidence n [])).
Proof.
  unfold process_image, and_then, call, lift, emit.
  fold (image_path cfg n).
  destruct (read w (image_path cfg n)) as [payload|e]; simpl.
  2:{ intros [H|[]]. discriminate. }
  destruct (detect_custom_labels w model_arn payload override_confidence)
    as [response'|e] eqn:Hdet; simpl.
  2:{ intros [H|[H|[]]] Hresp; [discriminate|].
      apply detect_event_inj in H. destruct H as (<- & <- & <-).
      congruence. }
  destruct (result (CLASS_NAMES cfg) (CustomLabels response'))
    as [rows'|e] eqn:Hres; simpl.
  - intros [H|[H|[H|[H|[]]]]] Hresp Hrows; try discriminate.
    apply detect_event_inj in H. destruct H as (<- & <- & <-).
    rewrite Hdet in Hresp. apply OK_inj in Hresp. subst response'.
    rewrite Hres in Hrows. apply OK_inj in Hrows. subst rows'.
    do 3 right. left. reflexivity.
  - intros [H|[H|[]]] Hresp Hrows; [discriminate|].
    apply detect_event_inj in H. destruct H as (<- & <- & <-).
    rewrite Hdet in Hresp. apply OK_inj in Hresp. subst response'.
    congruence.
Qed.

Lemma loop_renders_response (w : World) (cfg : Config) (model_arn : string)
  (override_confidence : option float) (names : list string)
  (a : string) (p : list Byte.byte) (f : option float)
  (response : Response) (rows : list NormalizedDetection) :
  In (DetectCustomLabels a p f)
     (fst (for_each names
             (process_image w cfg model_arn override_confidence) [])) ->
  detect_custom_labels w a p f = OK response ->
  result (CLASS_NAMES cfg) (CustomLabels response) = OK rows ->
  exists img_file,
    In (VisualizeDetection img_file rows (CLASS_NAMES cfg) 0%float)
       (fst (for_each names
               (process_image w cfg model_arn override_confidence) [])).
Proof.
  intros Hin Hresp Hrows. induction names as [|n names IH]; simpl in *.
  - contradiction.
  - unfold and_then in *.
    pose proof (process_image_renders_response w cfg model_arn
                  override_confidence n a p f response rows) as Hn.
    destruct (process_image w cfg model_arn override_confidence n [])
      as [s [u|e]]; simpl in Hn.
    + rewrite (loop_independent w cfg model_arn override_confidence
                 names s) in Hin |- *.
      simpl in Hin |- *. apply in_app_or in Hin.
      destruct Hin as [Hin|Hin].
      * exists (image_path cfg n). apply in_or_app. left. now apply Hn.
      * destruct (IH Hin) as [img Himg]. exists img.
        apply in_or_app. now right.
    + simpl in Hin |- *. exists (image_path cfg n). now apply Hn.
Qed.

(** C9: the renderer is only ever called with display threshold 0, on the
    normalisation of a response of the service; and every response the
    service gives to a request of the run, if its names are in the stored
    vocabulary, is handed to the renderer: one row per returned detection,
    and the renderer's filter at threshold 0 keeps every one of them, the
    service's confidences being at least 0.  No detection is filtered
    out. *)
Theorem render_threshold_zero_draws_all (w : World) (model_arn : string)
  (override_confidence : option float) :
  service_contract w ->
  (forall img_file dets classes thresh,
     In (VisualizeDetection img_file dets classes thresh)
        (fst (run w model_arn override_confidence)) ->
     thresh = 0%float
     /\ visualize_detection img_file dets classes thresh = dets
     /\ exists payload response,
          detect_custom_labels w model_arn payload override_confidence
            = OK response
          /\ result classes (CustomLabels response) = OK dets
          /\ length dets = length (CustomLabels response))
  /\
  (forall arn payload floor response classes,
     In (DetectCustomLabels arn payload floor)
        (fst (run w model_arn override_confidence)) ->
     detect_custom_labels w arn payload floor = OK response ->
     stored_CLASS_NAMES w = Some classes ->
     (forall l, In l (CustomLabels response) -> In (Name l) classes) ->
     exists img_file rows,
       In (VisualizeDetection img_file rows classes 0%float)
          (fst (run w model_arn override_confidence))
       /\ length rows = length (CustomLabels response)
       /\ Forall2 (fun l row => normalize_label classes l = OK row)
            (CustomLabels response)
            (visualize_detection img_file rows classes 0%float)).
Proof.
  intros Hservice.
  assert (Hall : forall classes labels rows,
            Forall confidence_in_range labels ->
            result classes labels = OK rows ->
            forall img_file,
              visualize_detection img_file rows classes 0%float = rows).
  { intros classes labels rows Hrange Hrows img_file.
    unfold visualize_detection. apply filter_all.
    apply (result_confidences _ _ _ (fun c => (0 <=? c)%float = true) Hrows).
    eapply Forall_impl; [|exact Hrange]. intros l [H0 _]. exact H0. }
  split.
  - intros img_file dets classes thresh Hin.
    pose proof (notebook_renders w model_arn override_confidence []
                  (Forall_nil _)) as Hinv.
    rewrite Forall_forall in Hinv. specialize (Hinv _ Hin). simpl in Hinv.
    destruct Hinv as [-> (payload & response & Hdet & Hrows)].
    split; [reflexivity|].
    split; [exact (Hall _ _ _ (Hservice _ _ _ _ Hdet) Hrows img_file)|].
    exists payload, response. split; [exact Hdet|]. split; [exact Hrows|].
    exact (proj1 (list_map_pointwise _ _ _ Hrows)).
  - intros arn payload floor response classes Hin Hresp Hstored Hnames.
    destruct (list_map_OK (normalize_label classes) (CustomLabels response))
      as [rows Hrows].
    { intros l Hl. apply normalize_label_present. now apply Hnames. }
    fold (result classes (CustomLabels response)) in Hrows.
    destruct (run_setup_cases w model_arn override_confidence)
      as [(cfg & region & Hsetup)|(t & e & Hrun & Hsetup_only)].
    2:{ rewrite Hrun in Hin. simpl in Hin.
        rewrite Forall_forall in Hsetup_only.
        apply Hsetup_only in Hin. discriminate. }
    assert (Hcls : CLASS_NAMES cfg = classes).
    { destruct Hsetup as (_ & _ & Hc & _). congruence. }
    assert (Hloop : exists img_file,
              In (VisualizeDetection img_file rows classes 0%float)
                 (fst (run w model_arn override_confidence))).
    { rewrite (run_structure _ _ _ _ _ Hsetup) in Hin |- *.
      cbn [fst] in Hin |- *.
      apply in_app_or in Hin. destruct Hin as [Hin|Hin].
      { now apply not_in_setup_events in Hin. }
      rewrite after_setup_nil in Hin |- *.
      destruct (start_project_version w model_arn 1) as [u|e].
      2:{ simpl in Hin. destruct Hin as [H|[]]. discriminate. }
      destruct (listdir w (test_image_folder cfg)) as [names|e].
      2:{ simpl in Hin. destruct Hin as [H|[H|[]]]; discriminate. }
      cbv zeta in Hin |- *.
      subst classes.
      pose proof (loop_renders_response w cfg model_arn override_confidence
                    names arn payload floor response rows) as Hrender.
      destruct (snd (for_each names _ [])) as [u'|e]; cbn [fst] in Hin |- *;
        destruct Hin as [H|[H|Hin]]; try discriminate.
      - apply in_app_or in Hin. destruct Hin as [Hin|[H|[]]];
          [|discriminate].
        destruct (Hrender Hin Hresp Hrows) as [img Himg]. exists img.
        apply in_or_app. right. right. right.
        apply in_or_app. now left.
      - destruct (Hrender Hin Hresp Hrows) as [img Himg]. exists img.
        apply in_or_app. right. right. right. exact Himg. }
    destruct Hloop as [img Himg]. exists img, rows.
    split; [exact Himg|].
    split; [exact (proj1 (list_map_pointwise _ _ _ Hrows))|].
    rewrite (Hall _ _ _ (Hservice _ _ _ _ Hresp) Hrows img).
    now apply list_map_Forall2.
Qed.

(** In the sample run the service answers the one request with one cat;
    the run hands it to the renderer, which draws it. *)
Lemma render_threshold_zero_draws_all_witness :
  service_contract sample_world
  /\ In (DetectCustomLabels "arn:model" [] (Some 80%float))
        (fst (run sample_world "arn:model" (Some 80%float)))
  /\ exists img_file rows,
       In (VisualizeDetection img_file rows ["boots"; "cats"] 0%float)
          (fst (run sample_world "arn:model" (Some 80%float)))
       /\ length rows = 1
       /\ Forall2 (fun l row => normalize_label ["boots"; "cats"] l = OK row)
            [detection "cats" 92.5 0.1 0.2 0.3 0.4]
            (visualize_detection img_file rows ["boots"; "cats"] 0%float).
Proof.
  split; [exact sample_world_in_contract|].
  assert (Hin : In (DetectCustomLabels "arn:model" [] (Some 80%float))
                   (fst (run sample_world "arn:model" (Some 80%float)))).
  { rewrite sample_run. simpl. do 6 right. left. reflexivity. }
  split; [exact Hin|].
  apply (proj2 (render_threshold_zero_draws_all sample_world "arn:model"
                  (Some 80%float) sample_world_in_contract)
           "arn:model" [] (Some 80%float)
           {| CustomLabels := [detection "cats" 92.5 0.1 0.2 0.3 0.4] |}
           ["boots"; "cats"] Hin).
  - reflexivity.
  - reflexivity.
  - intros l [<-|[]]. simpl. tauto.
Defined.
